(** * markdownlint-rule-mermaid: a shallow embedding of the mermaid rule

    Source: [src/unnamed/part_000] (the rule module).

    Modelling conventions.
    - A JS string is a [string] whose characters are the UTF-16 code units
      below 256 (Latin-1); offsets and lengths are counted in those units.
    - JS numbers that the code computes with are [Z].
    - [undefined]/[null] are [None]; a string-or-null field is [option string].
    - The regular expressions of the source are written in a small regex AST
      and run by a backtracking matcher that follows the ECMAScript matcher
      (left-most match, greedy/lazy quantifiers, empty-iteration check). *)

From Stdlib Require Import ZArith String Ascii List Bool Lia Permutation Sorted.
Import ListNotations.

Local Open Scope string_scope.
Local Open Scope list_scope.

(* ------------------------------------------------------------------ *)
(** ** JS string primitives *)

Module JS.

Definition code (c : ascii) : nat := nat_of_ascii c.

(** The characters of [String.prototype.trim] and of [\s] below 256:
    TAB, LF, VT, FF, CR, SPACE and NO-BREAK SPACE. *)
Definition is_ws (c : ascii) : bool :=
  let n := code c in
  ((9 <=? n) && (n <=? 13))%nat || (n =? 32)%nat || (n =? 160)%nat.

Definition nl : ascii := ascii_of_nat 10.
Definition cr : ascii := ascii_of_nat 13.
(** The double quote character, written by its code. *)
Definition dq_char : ascii := ascii_of_nat 34.
Definition dq : string := String dq_char EmptyString.
Definition sq_char : ascii := ascii_of_nat 39.

Fixpoint ltrim (s : string) : string :=
  match s with
  | EmptyString => EmptyString
  | String a s' => if is_ws a then ltrim s' else s
  end.

Fixpoint rtrim (s : string) : string :=
  match s with
  | EmptyString => EmptyString
  | String a s' =>
      let r := rtrim s' in
      match r with
      | EmptyString => if is_ws a then EmptyString else String a EmptyString
      | _ => String a r
      end
  end.

(** [s.trim()] *)
Definition trim (s : string) : string := rtrim (ltrim s).

(** [s.split(c)] for a one-character separator. *)
Fixpoint split_on (c : ascii) (s : string) : list string :=
  match s with
  | EmptyString => [EmptyString]
  | String a s' =>
      if Ascii.eqb a c then EmptyString :: split_on c s'
      else match split_on c s' with
           | [] => [String a EmptyString]
           | w :: ws => String a w :: ws
           end
  end.

(** [s.split('\n')] *)
Definition split_nl (s : string) : list string := split_on nl s.

(** [s.split('\n')[0]] (always defined: [split] returns a non-empty array). *)
Definition first_line (s : string) : string :=
  match split_nl s with
  | [] => EmptyString
  | l :: _ => l
  end.

(** [s.substring(0, n)] for [n >= 0]. *)
Definition substring0 (n : Z) (s : string) : string :=
  substring 0 (Z.to_nat n) s.

Fixpoint starts_with (p s : string) : bool :=
  match p, s with
  | EmptyString, _ => true
  | String a p', String b s' => Ascii.eqb a b && starts_with p' s'
  | String _ _, EmptyString => false
  end.

(** [s.includes(p)] *)
Fixpoint includes (p s : string) : bool :=
  starts_with p s ||
  match s with
  | EmptyString => false
  | String _ s' => includes p s'
  end.

(** Truthiness of a string-or-null value: [null], [undefined] and [""] are
    falsy. *)
Definition truthy (o : option string) : bool :=
  match o with
  | None => false
  | Some s => negb (String.eqb s EmptyString)
  end.

(** [String.prototype.toLowerCase] on Latin-1. *)
Definition lower (c : ascii) : ascii :=
  let n := code c in
  if ((65 <=? n) && (n <=? 90))%nat || ((192 <=? n) && (n <=? 222) && negb (n =? 215))%nat
  then ascii_of_nat (n + 32) else c.

Fixpoint to_lower (s : string) : string :=
  match s with
  | EmptyString => EmptyString
  | String a s' => String (lower a) (to_lower s')
  end.

(** [Number.parseInt(d, 10)] on a non-empty run of decimal digits. *)
Fixpoint digits_value_aux (acc : Z) (s : string) : Z :=
  match s with
  | EmptyString => acc
  | String a s' => digits_value_aux (acc * 10 + Z.of_nat (code a - 48)) s'
  end.

Definition parseInt10 (s : string) : Z := digits_value_aux 0 s.

(** Number of ['\n'] characters: [(s.match(/\n/g) || []).length]. *)
Fixpoint count_nl (s : string) : Z :=
  match s with
  | EmptyString => 0
  | String a s' => (if Ascii.eqb a nl then 1 else 0) + count_nl s'
  end.

End JS.

Import JS.

(* ------------------------------------------------------------------ *)
(** ** Regular expressions (the ECMAScript backtracking matcher) *)

Module Regex.

Inductive re : Type :=
| Chr (c : ascii)                  (** a literal character *)
| Cls (p : ascii -> bool)          (** a character class *)
| Seq (r1 r2 : re)
| Alt (r1 r2 : re)                 (** [r1|r2], left alternative first *)
| Star (greedy : bool) (r : re)    (** [r*] (greedy) or [r*?] (lazy) *)
| Grp (n : nat) (r : re)           (** capturing group number [n] *)
| Bol                              (** [^] without the [m] flag *)
| WordB.                           (** [\b] *)

Fixpoint re_size (r : re) : nat :=
  match r with
  | Chr _ | Cls _ | Bol | WordB => 1
  | Seq r1 r2 | Alt r1 r2 => S (re_size r1 + re_size r2)
  | Star _ r1 | Grp _ r1 => S (re_size r1)
  end.

(** Derived forms. *)
(** The empty regex: zero iterations of a class that matches nothing. *)
Definition Eps : re := Star true (Cls (fun _ => false)).
Definition Plus (r : re) : re := Seq r (Star true r).
Definition Opt (r : re) : re := Alt r Eps.
Fixpoint Lit (s : string) : re :=
  match s with
  | EmptyString => Eps
  | String a EmptyString => Chr a
  | String a s' => Seq (Chr a) (Lit s')
  end.

(** Character classes. *)
Definition in_range (lo hi : nat) (c : ascii) : bool :=
  ((lo <=? code c) && (code c <=? hi))%nat.
Definition is_digit : ascii -> bool := in_range 48 57.
Definition is_alpha (c : ascii) : bool := in_range 65 90 c || in_range 97 122 c.
Definition is_word (c : ascii) : bool := is_alpha c || is_digit c || (code c =? 95)%nat.
(** [.] : anything but a line terminator *)
Definition dot (c : ascii) : bool := negb (Ascii.eqb c nl || Ascii.eqb c cr).
Definition any (_ : ascii) : bool := true.

(** Case folding of the [i] flag (non-unicode): only ASCII letters fold
    to one another below 256. *)
Definition fold (c : ascii) : ascii :=
  if in_range 65 90 c then ascii_of_nat (code c + 32) else c.

Definition char_eq (ci : bool) (a c : ascii) : bool :=
  if ci then Ascii.eqb (fold a) (fold c) else Ascii.eqb a c.

Definition caps := list (nat * (nat * nat)).
Definition cont := nat -> caps -> option (nat * caps).

Definition word_at (s : string) (i : nat) : bool :=
  match get i s with Some a => is_word a | None => false end.

(** The backtracking matcher, in continuation-passing style; [fuel] bounds
    the recursion depth. A quantifier iteration that consumes nothing
    fails, as in the ECMAScript RepeatMatcher. *)
Fixpoint mt (fuel : nat) (ci : bool) (r : re) (s : string) (i : nat)
         (cp : caps) (k : cont) {struct fuel} : option (nat * caps) :=
  match fuel with
  | O => None
  | S f =>
      match r with
      | Chr c =>
          match get i s with
          | Some a => if char_eq ci a c then k (S i) cp else None
          | None => None
          end
      | Cls p =>
          match get i s with
          | Some a => if p a then k (S i) cp else None
          | None => None
          end
      | Seq r1 r2 => mt f ci r1 s i cp (fun j c' => mt f ci r2 s j c' k)
      | Alt r1 r2 =>
          match mt f ci r1 s i cp k with
          | Some x => Some x
          | None => mt f ci r2 s i cp k
          end
      | Star g r1 =>
          let more := fun (_ : unit) =>
            mt f ci r1 s i cp
               (fun j c' => if Nat.eqb j i then None else mt f ci (Star g r1) s j c' k) in
          if g then
            match more tt with Some x => Some x | None => k i cp end
          else
            match k i cp with Some x => Some x | None => more tt end
      | Grp n r1 => mt f ci r1 s i cp (fun j c' => k j ((n, (i, j)) :: c'))
      | Bol => if Nat.eqb i 0 then k i cp else None
      | WordB =>
          let before := match i with O => false | S i' => word_at s i' end in
          if xorb before (word_at s i) then k i cp else None
      end
  end.

Definition fuel_for (r : re) (s : string) : nat :=
  (re_size r + 1) * (String.length s + 2).

Definition final : cont := fun j c => Some (j, c).

(** A match: start index, end index, captures. *)
Record rmatch := { m_start : nat; m_end : nat; m_caps : caps }.

Fixpoint search_from (fuel : nat) (ci : bool) (r : re) (s : string) (i : nat) (n : nat)
  : option rmatch :=
  match mt fuel ci r s i [] final with
  | Some (j, c) => Some {| m_start := i; m_end := j; m_caps := c |}
  | None =>
      match n with
      | O => None
      | S n' => search_from fuel ci r s (S i) n'
      end
  end.

(** [RegExpBuiltinExec] from index [i] (leftmost match at or after [i]). *)
Definition exec_from (ci : bool) (r : re) (s : string) (i : nat) : option rmatch :=
  if (String.length s <? i)%nat then None
  else search_from (fuel_for r s) ci r s i (String.length s - i).

(** [s.match(r)] for a non-global [r]. *)
Definition exec (ci : bool) (r : re) (s : string) : option rmatch := exec_from ci r s 0.

Definition matches (ci : bool) (r : re) (s : string) : bool :=
  match exec ci r s with Some _ => true | None => false end.

(** [m[n]] *)
Definition group (s : string) (m : rmatch) (n : nat) : string :=
  match find (fun x => Nat.eqb (fst x) n) (m_caps m) with
  | Some (_, (a, b)) => substring a (b - a) s
  | None => EmptyString
  end.

(** [s.matchAll(r)] for a global [r]: successive matches, [lastIndex]
    advanced past an empty match. *)
Fixpoint match_all_from (fuel : nat) (ci : bool) (r : re) (s : string) (i : nat)
  : list rmatch :=
  match fuel with
  | O => []
  | S f =>
      match exec_from ci r s i with
      | None => []
      | Some m =>
          m :: match_all_from f ci r s
                 (if Nat.eqb (m_end m) (m_start m) then S (m_end m) else m_end m)
      end
  end.

Definition match_all (ci : bool) (r : re) (s : string) : list rmatch :=
  match_all_from (S (String.length s)) ci r s 0.

(** [s.replace(r, '')] for a non-global [r]. *)
Definition replace_first (ci : bool) (r : re) (s : string) : string :=
  match exec ci r s with
  | None => s
  | Some m => (substring 0 (m_start m) s ++ substring (m_end m) (String.length s - m_end m) s)%string
  end.

End Regex.

Import Regex.

(* ------------------------------------------------------------------ *)
(** ** The regular expressions of the rule *)

Module Patterns.

Fixpoint Seqs (rs : list re) : re :=
  match rs with
  | [] => Eps
  | [r] => r
  | r :: rs' => Seq r (Seqs rs')
  end.

Definition digits : re := Plus (Cls is_digit).
Definition not_sq (c : ascii) : bool := negb (Ascii.eqb c sq_char).

(** [/Parse error on line (\d+):/i] *)
Definition parse_error : re :=
  Seqs [Lit "Parse error on line "; Grp 1 digits; Chr ":"].

(** [/Lexical error on line (\d+)/i] *)
Definition lexical_error : re :=
  Seqs [Lit "Lexical error on line "; Grp 1 digits].

(** [/unexpected character: ->(.)<- at offset: (\d+)/] *)
Definition unexpected_char : re :=
  Seqs [Lit "unexpected character: ->"; Grp 1 (Cls dot); Lit "<- at offset: "; Grp 2 digits].

(** [/Expecting(?: token of type)? '?([^']+)'? but/i] *)
Definition expecting_token : re :=
  Seqs [Lit "Expecting"; Opt (Lit " token of type"); Chr " "; Opt (Chr sq_char);
        Grp 1 (Plus (Cls not_sq)); Opt (Chr sq_char); Lit " but"].

(** [/Expecting .+?, got '([^']+)'/] *)
Definition expecting_got : re :=
  Seqs [Lit "Expecting "; Cls dot; Star false (Cls dot); Lit ", got ";
        Chr sq_char; Grp 1 (Plus (Cls not_sq)); Chr sq_char].

(** [/^Parse error on line \d+:\s*/] *)
Definition parse_error_header : re :=
  Seqs [Bol; Lit "Parse error on line "; digits; Chr ":"; Star true (Cls is_ws)].

(** [/^\.{3}/] *)
Definition leading_ellipsis : re := Seqs [Bol; Lit "..."].

(** [/^([a-zA-Z][a-zA-Z0-9_-]...)/]: an anchored group of one ASCII letter
    followed by any number of letters, digits, [_] or [-]. *)
Definition type_token_char (c : ascii) : bool :=
  is_alpha c || is_digit c || (code c =? 95)%nat || (code c =? 45)%nat.
Definition diagram_type : re :=
  Seqs [Bol; Grp 1 (Seq (Cls is_alpha) (Star true (Cls type_token_char)))].

End Patterns.

(* ------------------------------------------------------------------ *)
(** ** Data model *)

Module ParsedError.
(** [interface ParsedError]; [message] is [None] only when it reads an
    absent property ([undefined]). *)
Record t := mk {
  line : option Z;
  message : option string;
  hint : option string;
  context : option string
}.
End ParsedError.

Module ValidationError.
(** [interface ValidationError]; [detail] is [None] when it is [undefined]. *)
Record t := mk {
  lineNumber : Z;
  detail : option string;
  context : option string
}.
End ValidationError.

(** [interface CodeBlock] *)
Record CodeBlock := mkBlock { code : string; startLine : Z }.

(** neverthrow's [Result] *)
Inductive Result (T E : Type) : Type :=
| Ok (v : T)
| Err (e : E).
Arguments Ok {T E}.
Arguments Err {T E}.

Definition isErr {T E} (r : Result T E) : bool :=
  match r with Err _ => true | Ok _ => false end.

(* ------------------------------------------------------------------ *)
(** ** Diagnostic translator *)

Local Open Scope Z_scope.

(** [TOKEN_HINTS]: token name, message, hint. *)
Definition TOKEN_HINTS : list (string * (string * string)) := [
  ("SQS", ("Unclosed square bracket",
           "Add closing ] to complete the node shape: A[text]"));
  ("PS", ("Unclosed parenthesis",
          "Add closing ) to complete the node shape: A(text) or A((text))"));
  ("DIAMOND_START", ("Unclosed curly brace or diamond",
                     "Add closing } to complete the shape: A{text} or A{{text}}"));
  ("SUBROUTINESTART", ("Unclosed subroutine shape",
                       "Add closing ]] to complete the subroutine: A[[text]]"));
  ("STADIUMSTART", ("Unclosed stadium shape",
                    "Add closing ]) to complete the stadium: A([text])"));
  ("CYLINDERSTART", ("Unclosed cylinder shape",
                     "Add closing ]) to complete the cylinder: A[(text)]"));
  ("DOUBLECIRCLESTART", ("Unclosed double circle shape",
                         "Add closing ))) to complete the double circle: A(((text)))"));
  ("TRAPSTART", ("Unclosed trapezoid shape",
                 "Add closing /] to complete the trapezoid: A[/text/]"));
  ("INVTRAPSTART", ("Unclosed inverse trapezoid shape",
                    "Add closing \] to complete the inverse trapezoid: A[\text\]"));
  ("TAGEND", ("Unclosed asymmetric shape",
              "Add closing ] to complete the asymmetric shape: A>text]"));
  ("1", ("Unclosed block",
         ("Add " ++ dq ++ "end" ++ dq ++ " to close subgraph, loop, alt, opt, par, critical, rect, or state block")%string));
  ("EOF_IN_STRUCT", ("Unclosed namespace or struct block",
                     "Add closing } to complete the namespace or class definition"));
  ("STRUCT_START", ("Invalid struct declaration",
                    "Check class syntax: class ClassName { ... }"));
  ("NODE_STRING", ("Unexpected text",
                   "Check for missing arrows (-->, ---) or invalid syntax"));
  ("NEWLINE", ("Incomplete statement",
               "Add missing parts (e.g., colon for messages: Alice->>Bob: message)"));
  ("EOF", ("Unexpected end of diagram",
           "Statement is incomplete - add missing node, message, or closing element"));
  ("LINK", ("Missing link source", "Add source node before arrow: A --> B"));
  ("ACTOR", ("Invalid participant reference",
             "Check participant name in note/over statement"));
  ("TXT", ("Missing message text", "Add message after colon: Alice->>Bob: Hello"));
  ("IDENTIFYING", ("Invalid ER relationship",
                   "Use valid relationship: ||--o{, }o--||, etc."));
  ("ONLY_ONE", ("Invalid ER cardinality",
                "Check cardinality symbols: ||, |o, o|, }|, |{, etc."));
  ("BLOCK_STOP", ("Invalid ER attribute block",
                  "Check attribute syntax: EntityName { type attrName }"));
  ("INVALID", ("Invalid state transition",
               "Use --> for transitions: StateA --> StateB"));
  ("taskData", ("Invalid task data",
                "Check task format: taskName :status, startDate, duration"));
  ("GENERICTYPE", ("Invalid generic type",
                   "Check generic syntax: class ClassName~Type~"));
  ("STYLE_SEPARATOR", ("Invalid style syntax", "Check style definition syntax"));
  ("COMMIT_ID", ("Invalid commit reference",
                 ("Use valid commit command: commit id: " ++ dq ++ "message" ++ dq)%string));
  ("COMMIT_TAG", ("Invalid commit tag",
                  ("Use valid tag: commit tag: " ++ dq ++ "v1.0" ++ dq)%string))
]%list.

(** The properties an object literal inherits from [Object.prototype]. Each
    is a function or an object (truthy), with no [message] or [hint]. *)
Definition object_prototype_props : list string :=
  ["constructor"; "__defineGetter__"; "__defineSetter__"; "hasOwnProperty";
   "__lookupGetter__"; "__lookupSetter__"; "isPrototypeOf";
   "propertyIsEnumerable"; "toString"; "valueOf"; "__proto__"; "toLocaleString"].

(** [getTokenHint(token)] = [TOKEN_HINTS[token] || null], returned as the
    [message] and [hint] properties of the value found. *)
Definition getTokenHint (token : string) : option (option string * option string) :=
  match find (fun e => String.eqb (fst e) token) TOKEN_HINTS with
  | Some (_, (m, h)) => Some (Some m, Some h)
  | None =>
      if existsb (String.eqb token) object_prototype_props then Some (None, None)
      else None
  end.

(** [extractContext(errorLines)] *)
Fixpoint extractContext_from (prev : option string) (ls : list string) : option string :=
  match ls with
  | [] => None
  | l :: ls' =>
      if includes "^" l then
        match prev with
        | Some p => Some (trim (replace_first false Patterns.leading_ellipsis p))
        | None => None
        end
      else extractContext_from (Some l) ls'
  end.

Definition extractContext (errorLines : list string) : option string :=
  extractContext_from None errorLines.

(** [handleParseError(errorMessage, match)] *)
Definition handleParseError (errorMessage : string) (m : rmatch) : ParsedError.t :=
  let line := parseInt10 (group errorMessage m 1) in
  let lines := split_nl errorMessage in
  let '(message, hint) :=
    match exec false Patterns.expecting_got errorMessage with
    | Some em =>
        let got := group errorMessage em 1 in
        match getTokenHint got with
        | Some (msg, h) => (msg, h)
        | None => (Some ("Syntax error: unexpected " ++ dq ++ got ++ dq)%string,
                   Some "Check the syntax near this position")
        end
    | None =>
        (Some (replace_first false Patterns.parse_error_header (hd EmptyString lines)), None)
    end in
  let context := extractContext lines in
  ParsedError.mk (Some line) message hint context.

Definition valid_types_hint : string :=
  "Valid types: flowchart, sequenceDiagram, classDiagram, stateDiagram, erDiagram, gantt, pie, mindmap, timeline, gitGraph".

(** [handleNoDiagramType(code)] *)
Definition handleNoDiagramType (code : string) : ParsedError.t :=
  let firstLine := trim (first_line code) in
  let displayLine := if String.eqb firstLine EmptyString then "(empty)" else firstLine in
  ParsedError.mk (Some 1%Z)
    (Some ("Unknown diagram type: " ++ dq ++ displayLine ++ dq)%string)
    (Some valid_types_hint)
    (let c := substring0 40 firstLine in
     if String.eqb c EmptyString then None else Some c).

(** The loop of [handleUnexpectedChar]: [line] and [pos] after walking
    [code.split('\n')] until [pos + codeLine.length >= offset]. *)
Fixpoint walk_lines (lines : list string) (offset pos line : Z) : Z :=
  match lines with
  | [] => line
  | codeLine :: rest =>
      if offset <=? pos + Z.of_nat (String.length codeLine) then line
      else walk_lines rest offset (pos + Z.of_nat (String.length codeLine) + 1) (line + 1)
  end.

Definition unexpected_char_line (code : string) (offset : Z) : Z :=
  walk_lines (split_nl code) offset 0 1.

(** [handleUnexpectedChar(match, code)] *)
Definition handleUnexpectedChar (errorMessage : string) (m : rmatch) (code : string)
  : ParsedError.t :=
  let char := group errorMessage m 1 in
  let offset := parseInt10 (group errorMessage m 2) in
  ParsedError.mk (Some (unexpected_char_line code offset))
    (Some ("Unexpected character " ++ dq ++ char ++ dq)%string)
    (Some "Check for typos, missing quotes, or invalid characters")
    None.

(** [parseErrorMessage(errorMessage, code)]: the six patterns in source
    order, then the default. *)
Definition parseErrorMessage (errorMessage code : string) : ParsedError.t :=
  match exec true Patterns.parse_error errorMessage with
  | Some m => handleParseError errorMessage m
  | None =>
  match exec true Patterns.lexical_error errorMessage with
  | Some m =>
      ParsedError.mk (Some (parseInt10 (group errorMessage m 1)))
        (Some "Unrecognized text or keyword")
        (Some "Check for typos, invalid keywords, or unsupported syntax")
        None
  | None =>
  if includes "No diagram type detected" errorMessage then handleNoDiagramType code else
  match exec false Patterns.unexpected_char errorMessage with
  | Some m => handleUnexpectedChar errorMessage m code
  | None =>
  match exec true Patterns.expecting_token errorMessage with
  | Some m =>
      ParsedError.mk (Some 1) (Some ("Expected " ++ group errorMessage m 1)%string)
        (Some "Check the diagram syntax and structure") None
  | None =>
  if includes "Expecting: one of these possible" errorMessage then
    ParsedError.mk (Some 1) (Some "Invalid syntax")
      (Some "Check command syntax (e.g., branch name, checkout target)") None
  else
    ParsedError.mk None (Some (substring0 150 (first_line errorMessage)))
      (Some "Check the diagram syntax for errors") None
  end end end end.

(** [formatErrorDetail(parsed)]: [message], plus [". " + hint] when the
    hint is truthy ([undefined] concatenates as the text "undefined"). *)
Definition formatErrorDetail (parsed : ParsedError.t) : option string :=
  if truthy (ParsedError.hint parsed) then
    let h := match ParsedError.hint parsed with Some h => h | None => EmptyString end in
    let m := match ParsedError.message parsed with Some m => m | None => "undefined" end in
    Some (m ++ ". " ++ h)%string
  else ParsedError.message parsed.

(** [toValidationError(parsed, startLine, code)]; [parsed.line ? ... : ...]
    tests the truthiness of the line number ([null] and [0] are falsy). *)
Definition toValidationError (parsed : ParsedError.t) (startLine : Z) (code : string)
  : ValidationError.t :=
  ValidationError.mk
    (match ParsedError.line parsed with
     | Some l => if l =? 0 then startLine else startLine + l - 1
     | None => startLine
     end)
    (formatErrorDetail parsed)
    (let c := ParsedError.context parsed in
     if truthy c then c else Some (substring0 40 (first_line code))).

Definition empty_diagram_detail : string :=
  "Empty Mermaid diagram. Add a diagram type (e.g., flowchart, sequenceDiagram) and content".

(** [checkNotEmpty(block)] *)
Definition checkNotEmpty (block : CodeBlock) : Result CodeBlock ValidationError.t :=
  let trimmed := trim (code block) in
  if String.eqb trimmed EmptyString then
    Err (ValidationError.mk (startLine block) (Some empty_diagram_detail) None)
  else Ok (mkBlock trimmed (startLine block)).

Definition missing_type_detail : string :=
  "Missing diagram type declaration. Start with a diagram type like: flowchart, sequenceDiagram, classDiagram".

(** The loop of [validateBasicBlock]: the first line whose trimmed form is
    neither empty nor a [%%] comment decides [foundType]. *)
Fixpoint found_type (lines : list string) : bool :=
  match lines with
  | [] => false
  | l :: rest =>
      let trimmedLine := trim l in
      if String.eqb trimmedLine EmptyString || starts_with "%%" trimmedLine
      then found_type rest
      else matches false Patterns.diagram_type trimmedLine
  end.

(** [validateBasicBlock(block)] *)
Definition validateBasicBlock (block : CodeBlock) : Result CodeBlock ValidationError.t :=
  match checkNotEmpty block with
  | Err e => Err e
  | Ok trimmedBlock =>
      let lines := split_nl (code trimmedBlock) in
      if found_type lines then Ok trimmedBlock
      else Err (ValidationError.mk (startLine block) (Some missing_type_detail)
                  (Some (substring0 40 (trim (hd EmptyString lines)))))
  end.

(* ------------------------------------------------------------------ *)
(** ** Fragment extraction *)

Module Token.
(** [interface Token] (a markdown-it token as markdownlint passes it). *)
Record t := mk { type : string; info : string; content : string; lineNumber : Z }.
End Token.

Definition quote (c : ascii) : bool := Ascii.eqb c dq_char || Ascii.eqb c sq_char.
Definition not_quote (c : ascii) : bool := negb (quote c).
Definition not_gt (c : ascii) : bool := negb (Ascii.eqb c ">"%char).

(** [<TAG[^>]*\bclass\s*=\s*["'][^"']*\bKEY\b[^"']*["'][^>]*>([\s\S]*?)<\/TAG>] *)
Definition html_carrier (tag key : string) : re :=
  Patterns.Seqs [Lit ("<" ++ tag); Star true (Cls not_gt); WordB; Lit "class";
    Star true (Cls is_ws); Chr "="; Star true (Cls is_ws); Cls quote;
    Star true (Cls not_quote); WordB; Lit key; WordB; Star true (Cls not_quote);
    Cls quote; Star true (Cls not_gt); Chr ">"; Grp 1 (Star false (Cls any));
    Lit ("</" ++ tag ++ ">")]%string.

(** [HTML_MERMAID_PATTERNS], all with the flags [gi]. *)
Definition HTML_MERMAID_PATTERNS : list re :=
  [html_carrier "pre" "mermaid"; html_carrier "div" "mermaid";
   html_carrier "code" "language-mermaid"].

(** [s.replace(/pat/g, rep)] for a literal, non-empty [pat]. *)
Fixpoint replace_all_from (n : nat) (pat rep s : string) : string :=
  match n with
  | O => s
  | S n' =>
      match s with
      | EmptyString => EmptyString
      | String a s' =>
          if starts_with pat s
          then (rep ++ replace_all_from n' pat rep
                         (substring (String.length pat) (String.length s - String.length pat) s))%string
          else String a (replace_all_from n' pat rep s')
      end
  end.

Definition replace_all (pat rep s : string) : string :=
  replace_all_from (String.length s) pat rep s.

(** [decodeHtmlEntities(code)] *)
Definition decodeHtmlEntities (code : string) : string :=
  replace_all "&nbsp;" " "
    (replace_all "&#39;" (String sq_char EmptyString)
      (replace_all "&quot;" dq
        (replace_all "&amp;" "&"
          (replace_all "&gt;" ">"
            (replace_all "&lt;" "<" code))))).

(** The block one match yields in [extractMermaidFromHtml]. *)
Definition block_of_match (html : string) (startLine : Z) (m : rmatch) : CodeBlock :=
  let c := group html m 1 in
  let beforeMatch := substring 0 (m_start m) html in
  mkBlock (trim (decodeHtmlEntities c)) (startLine + count_nl beforeMatch).

(** The blocks one pattern yields in [extractMermaidFromHtml]. *)
Definition html_pattern_blocks (pattern : re) (html : string) (startLine : Z)
  : list CodeBlock :=
  map (block_of_match html startLine) (match_all true pattern html).

(** [extractMermaidFromHtml(html, startLine)]: pattern by pattern. *)
Definition extractMermaidFromHtml (html : string) (startLine : Z) : list CodeBlock :=
  flat_map (fun pattern => html_pattern_blocks pattern html startLine) HTML_MERMAID_PATTERNS.

Definition token_blocks (token : Token.t) : list CodeBlock :=
  if String.eqb (Token.type token) "fence" then
    if String.eqb (to_lower (trim (Token.info token))) "mermaid"
    then [mkBlock (Token.content token) (Token.lineNumber token)]
    else []
  else if String.eqb (Token.type token) "html_block" then
    extractMermaidFromHtml (Token.content token) (Token.lineNumber token)
  else [].

(** [extractMermaidBlocks(tokens)] *)
Definition extractMermaidBlocks (tokens : list Token.t) : list CodeBlock :=
  flat_map token_blocks tokens.

(* ------------------------------------------------------------------ *)
(** ** neverthrow combinators and [Promise.all] *)

(** [combineResultListWithAllErrors]: the reduce of neverthrow. *)
Definition combineWithAllErrors {T E : Type} (rs : list (Result T E))
  : Result (list T) (list E) :=
  fold_left (fun acc r =>
               match r, acc with
               | Err e, Err es => Err (es ++ [e])
               | Err e, Ok _ => Err [e]
               | Ok _, Err es => Err es
               | Ok v, Ok vs => Ok (vs ++ [v])
               end) rs (Ok []).

Fixpoint list_set {A : Type} (l : list A) (i : nat) (x : A) : list A :=
  match l, i with
  | [], _ => []
  | _ :: l', O => x :: l'
  | y :: l', S i' => y :: list_set l' i' x
  end.

Fixpoint all_some {A : Type} (l : list (option A)) : option (list A) :=
  match l with
  | [] => Some []
  | None :: _ => None
  | Some x :: l' => match all_some l' with Some xs => Some (x :: xs) | None => None end
  end.

(** [Promise.all(ps)]: [order] lists the indices of the promises in the
    order they settle; each settled value is stored in its own slot, and the
    join completes once every slot is filled. *)
Definition promise_all {A : Type} (order : list nat) (ps : list A) : option (list A) :=
  all_some
    (fold_left (fun slots i =>
                  match nth_error ps i with
                  | Some v => list_set slots i (Some v)
                  | None => slots
                  end) order (repeat None (length ps))).

(* ------------------------------------------------------------------ *)
(** ** Validation and the rule *)

(** What the promise of [mermaid.parse(code)] does: resolve ([None]) or
    reject with an [Error] carrying a message, or with another value. *)
Inductive Thrown := ThrownError (message : string) | ThrownOther.

(** [error instanceof Error ? error.message : 'Unknown parse error'] *)
Definition thrown_message (error : Thrown) : string :=
  match error with ThrownError m => m | ThrownOther => "Unknown parse error" end.

Section Rule.

Variable mermaid_parse : string -> option Thrown.

(** A [ResultAsync]'s outcome, with the codes handed to [mermaid.parse]. *)
Definition Async (A : Type) : Type := (list string * A)%type.

(** [parseMermaidSyntax(block)] *)
Definition parseMermaidSyntax (block : CodeBlock)
  : Async (Result CodeBlock ValidationError.t) :=
  ([code block],
   match mermaid_parse (code block) with
   | None => Ok block
   | Some error =>
       let errorMessage := thrown_message error in
       let parsed := parseErrorMessage errorMessage (code block) in
       Err (toValidationError parsed (startLine block) (code block))
   end).

(** [validateMermaidBlock(block)] *)
Definition validateMermaidBlock (block : CodeBlock)
  : Async (Result CodeBlock ValidationError.t) :=
  match checkNotEmpty block with
  | Err e => ([], Err e)
  | Ok b => parseMermaidSyntax b
  end.

Definition basic_errors (blocks : list CodeBlock) : list ValidationError.t :=
  flat_map (fun block =>
              match validateBasicBlock block with Err e => [e] | Ok _ => [] end) blocks.

(** [mermaidSyntaxRule.function(params, onError)]: the codes handed to
    [mermaid.parse] and the arguments of the [onError] calls, in call order.
    [order] is the order in which the block validations settle. *)
Definition rule (basic : option bool) (order : list nat) (tokens : list Token.t)
  : list string * list ValidationError.t :=
  let useBasic := match basic with Some b => b | None => false end in
  let blocks := extractMermaidBlocks tokens in
  if useBasic then ([], basic_errors blocks)
  else
    let tasks := map validateMermaidBlock blocks in
    (flat_map fst tasks,
     match promise_all order (map snd tasks) with
     | Some results =>
         match combineWithAllErrors results with
         | Err errors => errors
         | Ok _ => []
         end
     | None => []
     end).

End Rule.

(* ------------------------------------------------------------------ *)
(** ** [getMermaid]: the lazily initialised mermaid instance *)

Module MermaidSetup.

(** The process-wide state [getMermaid] reads and writes: the cached
    [mermaidInstance], whether [globalThis.window] exists, and how many times
    the DOM shim, the dynamic import and [mermaid.initialize] have run. *)
Record state := mk {
  mermaidInstance : bool;
  windowDefined : bool;
  domSetups : nat;
  importsStarted : nat;
  initializeCalls : nat
}.

Definition fresh : state := mk false false 0 0 0.

(** Where one call of the async function [getMermaid] stands: not yet run,
    suspended at [await import('mermaid')], or returned. *)
Inductive pc := Fresh | AwaitingImport | Returned.

(** The synchronous part of a call, up to its first [await]. *)
Definition start (st : state) : state * pc :=
  if mermaidInstance st then (st, Returned)
  else
    let st1 :=
      if windowDefined st then st
      else mk (mermaidInstance st) true (S (domSetups st))
              (importsStarted st) (initializeCalls st) in
    (mk (mermaidInstance st1) (windowDefined st1) (domSetups st1)
        (S (importsStarted st1)) (initializeCalls st1), AwaitingImport).

(** The part after the import settles: [mermaid.initialize(...)] and
    [mermaidInstance = mermaid]. *)
Definition resume (st : state) : state * pc :=
  (mk true (windowDefined st) (domSetups st) (importsStarted st) (S (initializeCalls st)),
   Returned).

Definition step_task (st : state) (p : pc) : state * pc :=
  match p with
  | Fresh => start st
  | AwaitingImport => resume st
  | Returned => (st, Returned)
  end.

(** The event loop runs one segment of the task named at each step. *)
Fixpoint run (order : list nat) (st : state) (tasks : list pc) : state * list pc :=
  match order with
  | [] => (st, tasks)
  | i :: order' =>
      match nth_error tasks i with
      | Some p =>
          let '(st', p') := step_task st p in
          run order' st' (list_set tasks i p')
      | None => run order' st tasks
      end
  end.

(** Full mode on a fresh process: [blocks.map(validateMermaidBlock)] calls
    [getMermaid()] once per block that passes the empty check, each running
    synchronously up to its [await]; the suspended calls then resume in the
    order [order] in which their imports settle. *)
Definition first_full_run (n : nat) (order : list nat) : state * list pc :=
  run (seq 0 n ++ order) fresh (repeat Fresh n).

End MermaidSetup.

(** The number of [getMermaid()] calls full mode makes: one per block that
    passes [checkNotEmpty]. *)
Definition getMermaid_calls (tokens : list Token.t) : nat :=
  length (filter (fun b => negb (isErr (checkNotEmpty b))) (extractMermaidBlocks tokens)).

(** Lines joined by ['\n'] (to write multi-line inputs). *)
Fixpoint join_nl (ls : list string) : string :=
  match ls with
  | [] => EmptyString
  | [l] => l
  | l :: ls' => (l ++ String nl (join_nl ls'))%string
  end.

(** [calculateKatexErrorLine(code, position, startLine)] of the KaTeX rule. *)
Definition calculateKatexErrorLine (code : string) (position startLine : Z) : Z :=
  startLine + count_nl (substring0 position code).

(* ------------------------------------------------------------------ *)
(** ** The KaTeX rule *)

(** [KATEX_LANGS] *)
Definition KATEX_LANGS : list string := ["math"; "latex"; "tex"; "katex"]%list.

(** [<TAG[^>]*\bclass\s*=\s*["'][^"']*\bKEY\b[^"']*["'][^>]*>([\s\S]*?)<\/TAG>]
    with [KEY] a regular expression. *)
Definition html_carrier_re (tag : string) (key : re) : re :=
  Patterns.Seqs [Lit ("<" ++ tag); Star true (Cls not_gt); WordB; Lit "class";
    Star true (Cls is_ws); Chr "="; Star true (Cls is_ws); Cls quote;
    Star true (Cls not_quote); WordB; key; WordB; Star true (Cls not_quote);
    Cls quote; Star true (Cls not_gt); Chr ">"; Grp 1 (Star false (Cls any));
    Lit ("</" ++ tag ++ ">")]%string.

(** [language-(?:math|latex|tex|katex)] *)
Definition katex_language : re :=
  Seq (Lit "language-")
      (Alt (Lit "math") (Alt (Lit "latex") (Alt (Lit "tex") (Lit "katex")))).

(** [HTML_KATEX_PATTERNS], all with the flags [gi]. *)
Definition HTML_KATEX_PATTERNS : list re :=
  [html_carrier "span" "math"; html_carrier "div" "math";
   html_carrier_re "code" katex_language]%list.

(** [extractKatexFromHtml(html, startLine)]: pattern by pattern. *)
Definition extractKatexFromHtml (html : string) (startLine : Z) : list CodeBlock :=
  flat_map (fun pattern => html_pattern_blocks pattern html startLine) HTML_KATEX_PATTERNS.

Definition katex_token_blocks (token : Token.t) : list CodeBlock :=
  if String.eqb (Token.type token) "fence" then
    if existsb (String.eqb (to_lower (trim (Token.info token)))) KATEX_LANGS
    then [mkBlock (Token.content token) (Token.lineNumber token)]%list
    else []%list
  else if String.eqb (Token.type token) "html_block" then
    extractKatexFromHtml (Token.content token) (Token.lineNumber token)
  else []%list.

(** [extractKatexBlocks(tokens)] *)
Definition extractKatexBlocks (tokens : list Token.t) : list CodeBlock :=
  flat_map katex_token_blocks tokens.

Definition empty_math_detail : string :=
  "Empty math block. Add a LaTeX expression (e.g., E = mc^2)".

(** [checkKatexNotEmpty(block)] *)
Definition checkKatexNotEmpty (block : CodeBlock) : Result CodeBlock ValidationError.t :=
  let trimmed := trim (code block) in
  if String.eqb trimmed EmptyString then
    Err (ValidationError.mk (startLine block) (Some empty_math_detail) None)
  else Ok (mkBlock trimmed (startLine block)).

(** [getKatexErrorHint(message)] *)
Definition getKatexErrorHint (message : string) : string :=
  if includes "Undefined control sequence" message then
    ". Check for typos in command names or use \text{} for regular text"
  else if includes "Expected '}'" message then
    ". Make sure all braces {} are properly closed"
  else if includes "Expected group" message then
    ". Add the required argument in braces: \command{argument}"
  else if includes "Unexpected end of input" message then
    ". The expression is incomplete - check for missing closing braces or arguments"
  else EmptyString.

(** [s.substring(a, b)]: both ends clamped to [[0, length]], then swapped
    when [a > b]. *)
Definition js_substring (s : string) (a b : Z) : string :=
  let len := Z.of_nat (String.length s) in
  let a' := Z.max 0 (Z.min a len) in
  let b' := Z.max 0 (Z.min b len) in
  substring (Z.to_nat (Z.min a' b')) (Z.to_nat (Z.max a' b' - Z.min a' b')) s.

(** [extractKatexContext(code, position)] *)
Definition extractKatexContext (code : string) (position : Z) : string :=
  let start := Z.max 0 (position - 15) in
  let end_ := Z.min (Z.of_nat (String.length code)) (position + 15) in
  replace_all (String nl EmptyString) " " (js_substring code start end_).

(** What [katex.__parse] throws: a [katex.ParseError] with its message and
    its [position] when that is a number (KaTeX positions are integers), or
    another [Error], or a value that is no [Error]. *)
Inductive KatexThrown :=
| KatexParseError (message : string) (position : option Z)
| KatexOtherError (message : string)
| KatexOther.

(** [/^KaTeX parse error:\s*/i] *)
Definition katex_error_prefix : re :=
  Patterns.Seqs [Bol; Lit "KaTeX parse error:"; Star true (Cls is_ws)].

(** [parseKatexError(error, block)] *)
Definition parseKatexError (error : KatexThrown) (block : CodeBlock) : ValidationError.t :=
  match error with
  | KatexParseError message position =>
      let cleanMessage := replace_first true katex_error_prefix message in
      let hint := getKatexErrorHint cleanMessage in
      let errorLine :=
        match position with
        | Some p => calculateKatexErrorLine (code block) p (startLine block)
        | None => startLine block
        end in
      let context :=
        match position with
        | Some p => Some (extractKatexContext (code block) p)
        | None => None
        end in
      ValidationError.mk errorLine (Some (cleanMessage ++ hint)%string) context
  | KatexOtherError message =>
      ValidationError.mk (startLine block) (Some message) (Some (substring0 40 (code block)))
  | KatexOther =>
      ValidationError.mk (startLine block) (Some "Unknown KaTeX parse error")
        (Some (substring0 40 (code block)))
  end.

(** [interface KatexRuleConfig] *)
Record KatexRuleConfig := mkKatexConfig { displayMode : option bool; strict : option bool }.

Section KatexRule.

(** [katex.__parse(code, { displayMode, strict })]: accepts ([None]) or
    throws. *)
Variable katex_parse : string -> bool -> bool -> option KatexThrown.

(** [validateKatexSyntax(block, config)], with the code handed to the
    parser. *)
Definition validateKatexSyntax (block : CodeBlock) (config : KatexRuleConfig)
  : Async (Result CodeBlock ValidationError.t) :=
  let dm := match displayMode config with Some b => b | None => false end in
  let st := match strict config with Some b => b | None => false end in
  ([code block]%list,
   match katex_parse (code block) dm st with
   | None => Ok block
   | Some error => Err (parseKatexError error block)
   end).

(** [validateKatexBlock(block, config)] *)
Definition validateKatexBlock (block : CodeBlock) (config : KatexRuleConfig)
  : Async (Result CodeBlock ValidationError.t) :=
  match checkKatexNotEmpty block with
  | Err e => ([]%list, Err e)
  | Ok b => validateKatexSyntax b config
  end.

(** [katexSyntaxRule.function(params, onError)]: the codes handed to the
    parser and the arguments of the [onError] calls, in call order
    ([params.config ?? {}]). *)
Definition katex_rule (config : option KatexRuleConfig) (tokens : list Token.t)
  : list string * list ValidationError.t :=
  let cfg := match config with Some c => c | None => mkKatexConfig None None end in
  let results := map (fun block => validateKatexBlock block cfg) (extractKatexBlocks tokens) in
  (flat_map fst results,
   flat_map (fun r => match snd r with Err e => [e] | Ok _ => [] end%list) results).

End KatexRule.

(* ================================================================== *)
(** * Properties *)

(** ** String lemmas *)

Lemma split_nl_cons (a : ascii) (s : string) :
  split_nl (String a s) =
  if Ascii.eqb a nl then EmptyString :: split_nl s
  else match split_nl s with
       | [] => [String a EmptyString]
       | w :: ws => String a w :: ws
       end.
Proof. reflexivity. Qed.

Lemma split_on_not_nil (c : ascii) (s : string) : split_on c s <> [].
Proof.
  induction s as [|a s IH]; simpl; [discriminate|].
  destruct (Ascii.eqb a c); [discriminate|].
  destruct (split_on c s); discriminate.
Qed.

Lemma substring0_nat (n : nat) (s : string) :
  substring 0 n s = substring0 (Z.of_nat n) s.
Proof. unfold substring0. now rewrite Nat2Z.id. Qed.

Lemma count_nl_substring_cons (a : ascii) (s : string) (n : nat) :
  count_nl (substring 0 (S n) (String a s)) =
  (if Ascii.eqb a nl then 1 else 0) + count_nl (substring 0 n s).
Proof. reflexivity. Qed.

(** ** The line walk of [handleUnexpectedChar] *)

(** Walking a line that begins with a non-newline character [a] from [pos]
    is walking its tail from [pos + 1]. *)
Lemma walk_lines_shift (a : ascii) (w : string) (ws : list string) (offset pos line : Z) :
  walk_lines (String a w :: ws) offset pos line =
  walk_lines (w :: ws) offset (pos + 1) line.
Proof.
  simpl. rewrite Zpos_P_of_succ_nat.
  replace (pos + Z.succ (Z.of_nat (String.length w))) with
          (pos + 1 + Z.of_nat (String.length w)) by lia.
  replace (pos + Z.succ (Z.of_nat (String.length w)) + 1) with
          (pos + 1 + Z.of_nat (String.length w) + 1) by lia.
  reflexivity.
Qed.

Ltac zleb :=
  repeat first [ rewrite (proj2 (Z.leb_le _ _)) by lia
               | rewrite (proj2 (Z.leb_gt _ _)) by lia ].

Lemma walk_lines_count (code : string) :
  forall (pos line offset : Z),
    pos <= offset <= pos + Z.of_nat (String.length code) ->
    walk_lines (split_nl code) offset pos line =
    line + count_nl (substring0 (offset - pos) code).
Proof.
  induction code as [|a s IH]; intros pos line offset Hr.
  - simpl in Hr. assert (offset = pos) by lia. subst.
    simpl. zleb. unfold substring0. rewrite Z.sub_diag. simpl. lia.
  - simpl String.length in Hr. rewrite Nat2Z.inj_succ in Hr.
    destruct (Z.eq_dec offset pos) as [->|Hne].
    + (* offset at the start: the first line covers it *)
      unfold substring0. rewrite Z.sub_diag. simpl substring. simpl count_nl.
      rewrite split_nl_cons. destruct (Ascii.eqb a nl).
      * simpl. zleb. lia.
      * pose proof (split_on_not_nil nl s) as Hnn. unfold split_nl.
        destruct (split_on nl s) as [|w ws]; [contradiction|].
        simpl walk_lines. zleb. lia.
    + assert (Hsub : substring0 (offset - pos) (String a s) =
                     String a (substring0 (offset - (pos + 1)) s)).
      { unfold substring0.
        replace (Z.to_nat (offset - pos)) with (S (Z.to_nat (offset - (pos + 1)))) by lia.
        reflexivity. }
      rewrite Hsub. simpl count_nl.
      rewrite split_nl_cons. destruct (Ascii.eqb a nl) eqn:Ha.
      * simpl walk_lines. zleb.
        replace (pos + 0 + 1) with (pos + 1) by lia.
        rewrite IH by lia. lia.
      * pose proof (split_on_not_nil nl s) as Hnn. fold (split_nl s) in Hnn.
        destruct (split_nl s) as [|w ws] eqn:Hs; [contradiction|].
        rewrite walk_lines_shift, IH by lia. lia.
Qed.

(** ** C9 *)

(** C9: for every code string and every offset [0 <= offset <= length],
    the 1-based line found by [handleUnexpectedChar]'s length-accumulating
    walk over [code.split('\n')] is [1] plus the number of newlines strictly
    before [offset], the line [calculateKatexErrorLine] computes with start
    line 1. *)
Theorem unexpected_char_line_counts_newlines (code : string) (offset : Z) :
  0 <= offset <= Z.of_nat (String.length code) ->
  unexpected_char_line code offset = calculateKatexErrorLine code offset 1 /\
  unexpected_char_line code offset = 1 + count_nl (substring0 offset code).
Proof.
  intros H. unfold unexpected_char_line, calculateKatexErrorLine.
  rewrite walk_lines_count by lia. rewrite Z.sub_0_r. split; reflexivity.
Qed.

(** ** Validation of one block *)

Lemma validateMermaidBlock_nonempty (mermaid_parse : string -> option Thrown)
      (block : CodeBlock) :
  trim (code block) <> EmptyString ->
  validateMermaidBlock mermaid_parse block =
  parseMermaidSyntax mermaid_parse (mkBlock (trim (code block)) (startLine block)).
Proof.
  intros H. unfold validateMermaidBlock, checkNotEmpty.
  destruct (String.eqb_spec (trim (code block)) EmptyString); [contradiction|reflexivity].
Qed.

Lemma validateMermaidBlock_rejected (mermaid_parse : string -> option Thrown)
      (block : CodeBlock) (error : Thrown) :
  trim (code block) <> EmptyString ->
  mermaid_parse (trim (code block)) = Some error ->
  snd (validateMermaidBlock mermaid_parse block) =
  Err (toValidationError (parseErrorMessage (thrown_message error) (trim (code block)))
                         (startLine block) (trim (code block))).
Proof.
  intros H1 H2. rewrite validateMermaidBlock_nonempty by exact H1.
  unfold parseMermaidSyntax. simpl. rewrite H2. reflexivity.
Qed.

(** ** C1 *)

(** C1: when the translator resolves a fragment-relative line [L >= 1] for
    a parser failure of a block with start line [S], the reported error has
    [lineNumber = S + L - 1]; when it resolves no line, [lineNumber = S]. *)
Theorem validation_error_line_offset (mermaid_parse : string -> option Thrown)
        (block : CodeBlock) (error : Thrown) :
  trim (code block) <> EmptyString ->
  mermaid_parse (trim (code block)) = Some error ->
  let parsed := parseErrorMessage (thrown_message error) (trim (code block)) in
  exists e,
    snd (validateMermaidBlock mermaid_parse block) = Err e /\
    (forall L, ParsedError.line parsed = Some L -> 1 <= L ->
               ValidationError.lineNumber e = startLine block + L - 1) /\
    (ParsedError.line parsed = None -> ValidationError.lineNumber e = startLine block).
Proof.
  intros H1 H2 parsed.
  rewrite (validateMermaidBlock_rejected _ _ _ H1 H2).
  eexists; split; [reflexivity|]. fold parsed.
  unfold toValidationError; simpl.
  split.
  - intros L HL HL1. rewrite HL.
    destruct (Z.eqb_spec L 0); [lia|reflexivity].
  - intros HL. rewrite HL. reflexivity.
Qed.

(** The fragment of scenario 4 of the spec, and the message mermaid gives
    for it. *)
Definition scenario4_code : string := join_nl ["flowchart LR"; "A --> B"; "C --> [D"].
Definition scenario4_message : string :=
  join_nl ["Parse error on line 3:"; "...LR A --> B C --> [D"; "----------------------^";
           "Expecting 'SQE', 'DOUBLECIRCLEEND', 'PE', got 'EOF'"].

Lemma validation_error_line_offset_witness :
  trim (code (mkBlock scenario4_code 2)) <> EmptyString /\
  (fun _ => Some (ThrownError scenario4_message)) (trim (code (mkBlock scenario4_code 2)))
    = Some (ThrownError scenario4_message) /\
  ParsedError.line (parseErrorMessage scenario4_message (trim scenario4_code)) = Some 3 /\
  (let parsed := parseErrorMessage (thrown_message (ThrownError scenario4_message))
                   (trim (code (mkBlock scenario4_code 2))) in
   exists e,
     snd (validateMermaidBlock (fun _ => Some (ThrownError scenario4_message))
            (mkBlock scenario4_code 2)) = Err e /\
     (forall L, ParsedError.line parsed = Some L -> 1 <= L ->
                ValidationError.lineNumber e = startLine (mkBlock scenario4_code 2) + L - 1) /\
     (ParsedError.line parsed = None ->
      ValidationError.lineNumber e = startLine (mkBlock scenario4_code 2))).
Proof.
  split; [vm_compute; discriminate|].
  split; [reflexivity|].
  split; [vm_compute; reflexivity|].
  apply validation_error_line_offset; [vm_compute; discriminate|reflexivity].
Defined.

(** ** C2 *)

(** C2: a block whose trimmed code is empty gives exactly one error, the
    empty-content error at its start line, in full mode without any call of
    the mermaid parser, and in basic mode. *)
Theorem empty_block_single_error (mermaid_parse : string -> option Thrown)
        (block : CodeBlock) :
  trim (code block) = EmptyString ->
  validateMermaidBlock mermaid_parse block =
    ([], Err (ValidationError.mk (startLine block) (Some empty_diagram_detail) None)) /\
  validateBasicBlock block =
    Err (ValidationError.mk (startLine block) (Some empty_diagram_detail) None).
Proof.
  intros H. unfold validateMermaidBlock, validateBasicBlock, checkNotEmpty.
  rewrite H. split; reflexivity.
Qed.

Lemma empty_block_single_error_witness :
  trim (code (mkBlock (join_nl ["  "; " "]) 2)) = EmptyString /\
  validateMermaidBlock (fun _ => None) (mkBlock (join_nl ["  "; " "]) 2) =
    ([], Err (ValidationError.mk (startLine (mkBlock (join_nl ["  "; " "]) 2))
                (Some empty_diagram_detail) None)) /\
  validateBasicBlock (mkBlock (join_nl ["  "; " "]) 2) =
    Err (ValidationError.mk (startLine (mkBlock (join_nl ["  "; " "]) 2))
           (Some empty_diagram_detail) None).
Proof.
  split; [vm_compute; reflexivity|].
  apply empty_block_single_error. vm_compute. reflexivity.
Defined.

(** ** C10 *)

(** A parse error whose source line (the one above the caret line) is
    blank: the translator's context is the empty string. *)
Definition blank_context_message : string :=
  join_nl ["Parse error on line 1:"; ""; "^"].

(** C10 fails as stated: the translator's context is non-null ([""]) but
    the reported context is the first line of the code, since [||] treats
    [""] like [null]. *)
Lemma full_mode_context_counterexample :
  ParsedError.context (parseErrorMessage blank_context_message "flowchart LR") = Some "" /\
  snd (validateMermaidBlock (fun _ => Some (ThrownError blank_context_message))
         (mkBlock "flowchart LR" 1)) =
    Err (ValidationError.mk 1 (Some "") (Some "flowchart LR")).
Proof. split; vm_compute; reflexivity. Qed.

(** C10 (amended): every error from a mermaid parser failure in full mode
    has a present context: the translator's context when it is a non-empty
    string, and otherwise (null or empty) the first line of the block's
    trimmed code truncated to 40 characters. *)
Theorem full_mode_error_context (mermaid_parse : string -> option Thrown)
        (block : CodeBlock) (error : Thrown) :
  trim (code block) <> EmptyString ->
  mermaid_parse (trim (code block)) = Some error ->
  let c := ParsedError.context
             (parseErrorMessage (thrown_message error) (trim (code block))) in
  exists e,
    snd (validateMermaidBlock mermaid_parse block) = Err e /\
    ValidationError.context e =
      (if truthy c then c else Some (substring0 40 (first_line (trim (code block))))) /\
    ValidationError.context e <> None.
Proof.
  intros H1 H2 c.
  rewrite (validateMermaidBlock_rejected _ _ _ H1 H2).
  eexists; split; [reflexivity|]. unfold toValidationError; simpl. fold c.
  split; [reflexivity|].
  destruct (truthy c) eqn:Ht; [|discriminate].
  destruct c; [discriminate|discriminate].
Qed.

Lemma full_mode_error_context_witness :
  trim (code (mkBlock scenario4_code 2)) <> EmptyString /\
  (fun _ => Some ThrownOther) (trim (code (mkBlock scenario4_code 2))) = Some ThrownOther /\
  (let c := ParsedError.context
              (parseErrorMessage (thrown_message ThrownOther) (trim (code (mkBlock scenario4_code 2)))) in
   exists e,
     snd (validateMermaidBlock (fun _ => Some ThrownOther) (mkBlock scenario4_code 2)) = Err e /\
     ValidationError.context e =
       (if truthy c then c
        else Some (substring0 40 (first_line (trim (code (mkBlock scenario4_code 2)))))) /\
     ValidationError.context e <> None).
Proof.
  split; [vm_compute; discriminate|].
  split; [reflexivity|].
  apply full_mode_error_context; [vm_compute; discriminate|reflexivity].
Defined.

(** ** [Promise.all] and [combineWithAllErrors] *)

Lemma list_set_length {A : Type} (l : list A) (i : nat) (x : A) :
  length (list_set l i x) = length l.
Proof.
  revert i; induction l as [|y l IH]; intros [|i]; simpl; auto.
Qed.

Lemma nth_error_list_set {A : Type} (l : list A) (i j : nat) (x : A) :
  nth_error (list_set l i x) j =
  if Nat.eqb i j then (if (i <? length l)%nat then Some x else None) else nth_error l j.
Proof.
  revert i j; induction l as [|y l IH]; intros [|i] [|j]; simpl; auto.
  destruct (Nat.eqb i j); reflexivity.
Qed.

Definition fill_slots {A : Type} (ps : list A) (order : list nat) (slots : list (option A))
  : list (option A) :=
  fold_left (fun slots i =>
               match nth_error ps i with
               | Some v => list_set slots i (Some v)
               | None => slots
               end) order slots.

Lemma fill_slots_length {A : Type} (ps : list A) (order : list nat) :
  forall slots, length (fill_slots ps order slots) = length slots.
Proof.
  induction order as [|i order IH]; intros slots; simpl; [reflexivity|].
  unfold fill_slots in *. rewrite IH.
  destruct (nth_error ps i); [apply list_set_length|reflexivity].
Qed.

(** Each settled promise lands in its own slot, whatever the order. *)
Lemma fill_slots_nth {A : Type} (ps : list A) (order : list nat) :
  forall slots j, length slots = length ps ->
    nth_error (fill_slots ps order slots) j =
    if existsb (Nat.eqb j) order then option_map Some (nth_error ps j)
    else nth_error slots j.
Proof.
  induction order as [|i order IH]; intros slots j Hl; simpl; [reflexivity|].
  unfold fill_slots in *.
  destruct (nth_error ps i) as [v|] eqn:Hi.
  - rewrite IH by (rewrite list_set_length; exact Hl).
    rewrite nth_error_list_set.
    destruct (Nat.eqb_spec j i) as [->|Hne].
    + rewrite Nat.eqb_refl. simpl. rewrite Hi.
      assert (i < length ps)%nat by (apply nth_error_Some; congruence).
      replace (i <? length slots)%nat with true by (symmetry; apply Nat.ltb_lt; lia).
      destruct (existsb (Nat.eqb i) order); reflexivity.
    + replace (Nat.eqb i j) with false by (symmetry; apply Nat.eqb_neq; congruence).
      simpl. reflexivity.
  - rewrite IH by exact Hl.
    destruct (Nat.eqb_spec j i) as [->|Hne]; simpl.
    + rewrite Hi. destruct (existsb (Nat.eqb i) order); [reflexivity|].
      apply nth_error_None. apply nth_error_None in Hi. lia.
    + reflexivity.
Qed.

Lemma all_some_map_Some {A : Type} (l : list A) : all_some (map Some l) = Some l.
Proof. induction l as [|x l IH]; simpl; [reflexivity|]. now rewrite IH. Qed.

(** [Promise.all] yields the values in the order of its input, whatever the
    order in which they settle. *)
Lemma promise_all_input_order {A : Type} (order : list nat) (ps : list A) :
  Permutation order (seq 0 (length ps)) ->
  promise_all order ps = Some ps.
Proof.
  intros Hp. unfold promise_all. fold (fill_slots ps order (repeat None (length ps))).
  replace (fill_slots ps order (repeat None (length ps))) with (map Some ps).
  { apply all_some_map_Some. }
  apply nth_error_ext. intros j.
  rewrite fill_slots_nth by apply repeat_length.
  rewrite nth_error_map.
  destruct (existsb (Nat.eqb j) order) eqn:E; [reflexivity|].
  destruct (Nat.lt_ge_cases j (length ps)) as [Hj|Hj].
  - exfalso.
    assert (Hin : In j order).
    { apply (Permutation_in _ (Permutation_sym Hp)). apply in_seq. lia. }
    assert (existsb (Nat.eqb j) order = true).
    { apply existsb_exists. exists j. split; [exact Hin|apply Nat.eqb_refl]. }
    congruence.
  - rewrite (proj2 (nth_error_None ps j)) by lia.
    rewrite (proj2 (nth_error_None _ j)); [reflexivity|].
    rewrite repeat_length. exact Hj.
Qed.

Definition errs_of {T E : Type} (rs : list (Result T E)) : list E :=
  flat_map (fun r => match r with Err e => [e] | Ok _ => [] end) rs.

(** The errors handed to [onError] by [results.mapErr(...)]. *)
Definition reported {T E : Type} (r : Result (list T) (list E)) : list E :=
  match r with Err es => es | Ok _ => [] end.

Lemma combine_from_err {T E : Type} (rs : list (Result T E)) :
  forall es,
    fold_left (fun acc r =>
                 match r, acc with
                 | Err e, Err es => Err (es ++ [e])
                 | Err e, Ok _ => Err [e]
                 | Ok _, Err es => Err es
                 | Ok v, Ok vs => Ok (vs ++ [v])
                 end) rs (Err es) = Err (es ++ errs_of rs).
Proof.
  induction rs as [|r rs IH]; intros es; simpl.
  - now rewrite app_nil_r.
  - destruct r as [v|e]; rewrite IH; [reflexivity|].
    now rewrite <- app_assoc.
Qed.

(** When every result is an error, all errors are collected, in order. *)
Lemma combineWithAllErrors_all_err {T E : Type} (rs : list (Result T E)) :
  Forall (fun r => isErr r = true) rs ->
  reported (combineWithAllErrors rs) = errs_of rs.
Proof.
  intros H. unfold combineWithAllErrors.
  destruct rs as [|r rs]; [reflexivity|].
  inversion H as [|? ? Hr _]; subst.
  destruct r as [v|e]; [discriminate|]. simpl.
  rewrite combine_from_err. reflexivity.
Qed.

Lemma errs_of_all_err {T E : Type} (xs : list T) (f : T -> Result CodeBlock E) :
  Forall (fun x => isErr (f x) = true) xs ->
  Forall2 (fun x e => f x = Err e) xs (errs_of (map f xs)).
Proof.
  induction 1 as [|x xs Hx _ IH]; simpl; [constructor|].
  destruct (f x) as [v|e] eqn:Hf; [discriminate|].
  simpl. constructor; [exact Hf|exact IH].
Qed.

(** ** C3 *)

(** C3: in full mode, when every extracted block fails validation,
    [onError] is called once per block, in the order the blocks were
    extracted, whatever the order in which their validations settle. *)
Theorem full_mode_reports_in_block_order (mermaid_parse : string -> option Thrown)
        (tokens : list Token.t) (order : list nat) :
  let blocks := extractMermaidBlocks tokens in
  Permutation order (seq 0 (length blocks)) ->
  Forall (fun b => isErr (snd (validateMermaidBlock mermaid_parse b)) = true) blocks ->
  Forall2 (fun b e => snd (validateMermaidBlock mermaid_parse b) = Err e)
          blocks (snd (rule mermaid_parse (Some false) order tokens)) /\
  length (snd (rule mermaid_parse (Some false) order tokens)) = length blocks.
Proof.
  intros blocks Hperm Hall.
  assert (Hrep : snd (rule mermaid_parse (Some false) order tokens) =
                 errs_of (map (fun b => snd (validateMermaidBlock mermaid_parse b)) blocks)).
  { unfold rule. fold blocks. simpl snd.
    rewrite map_map.
    rewrite promise_all_input_order
      by (rewrite length_map; exact Hperm).
    apply combineWithAllErrors_all_err.
    apply Forall_map. exact Hall. }
  assert (H2 := errs_of_all_err blocks (fun b => snd (validateMermaidBlock mermaid_parse b)) Hall).
  rewrite Hrep. split; [exact H2|].
  symmetry. apply (Forall2_length H2).
Qed.

(** Two empty mermaid fences, settling in reverse order. *)
Definition two_empty_fences : list Token.t :=
  [Token.mk "fence" "mermaid" " " 2; Token.mk "fence" " Mermaid " EmptyString 5].

Lemma full_mode_reports_in_block_order_witness :
  Permutation [1; 0]%nat (seq 0 (length (extractMermaidBlocks two_empty_fences))) /\
  Forall (fun b => isErr (snd (validateMermaidBlock (fun _ => None) b)) = true)
         (extractMermaidBlocks two_empty_fences) /\
  (Forall2 (fun b e => snd (validateMermaidBlock (fun _ => None) b) = Err e)
          (extractMermaidBlocks two_empty_fences)
          (snd (rule (fun _ => None) (Some false) [1; 0]%nat two_empty_fences)) /\
   length (snd (rule (fun _ => None) (Some false) [1; 0]%nat two_empty_fences)) =
   length (extractMermaidBlocks two_empty_fences)).
Proof.
  split; [vm_compute; apply perm_swap|].
  split; [vm_compute; repeat constructor|].
  apply full_mode_reports_in_block_order.
  - vm_compute; apply perm_swap.
  - vm_compute; repeat constructor.
Defined.

(** ** Trimming and line splitting *)

Fixpoint all_ws (s : string) : bool :=
  match s with
  | EmptyString => true
  | String a s' => is_ws a && all_ws s'
  end.

Lemma string_app_assoc (x y z : string) : (x ++ (y ++ z) = (x ++ y) ++ z)%string.
Proof. induction x as [|a x IH]; simpl; [reflexivity|]. now rewrite IH. Qed.

Lemma string_app_nil_r (x : string) : (x ++ EmptyString = x)%string.
Proof. induction x as [|a x IH]; simpl; [reflexivity|]. now rewrite IH. Qed.

Lemma rtrim_all_ws (t : string) : all_ws t = true -> rtrim t = EmptyString.
Proof.
  induction t as [|a t IH]; simpl; [reflexivity|].
  intros H. apply andb_prop in H as [Ha Ht]. rewrite IH by exact Ht. now rewrite Ha.
Qed.

Lemma ltrim_all_ws (t : string) : all_ws t = true -> ltrim t = EmptyString.
Proof.
  induction t as [|a t IH]; simpl; [reflexivity|].
  intros H. apply andb_prop in H as [Ha Ht]. rewrite Ha. exact (IH Ht).
Qed.

Lemma rtrim_app_ws (x t : string) : all_ws t = true -> rtrim (x ++ t) = rtrim x.
Proof.
  intros Ht. induction x as [|a x IH]; simpl.
  - exact (rtrim_all_ws t Ht).
  - now rewrite IH.
Qed.

(** Trailing blanks do not change a trimmed line. *)
Lemma trim_app_ws (u t : string) : all_ws t = true -> trim (u ++ t) = trim u.
Proof.
  intros Ht. unfold trim. induction u as [|a u IH]; simpl.
  - rewrite ltrim_all_ws by exact Ht. reflexivity.
  - destruct (is_ws a); [exact IH|].
    change (String a (u ++ t)) with (String a u ++ t)%string.
    apply rtrim_app_ws. exact Ht.
Qed.

Lemma trim_ws_cons (a : ascii) (s : string) : is_ws a = true -> trim (String a s) = trim s.
Proof. intros H. unfold trim. simpl. now rewrite H. Qed.

Lemma trim_all_ws (t : string) : all_ws t = true -> trim t = EmptyString.
Proof. intros H. unfold trim. rewrite ltrim_all_ws by exact H. reflexivity. Qed.

Lemma rtrim_split (x : string) : exists t, all_ws t = true /\ x = (rtrim x ++ t)%string.
Proof.
  induction x as [|a x IH]; simpl.
  - exists EmptyString. split; reflexivity.
  - destruct IH as [t [Ht Hx]].
    destruct (rtrim x) as [|b r] eqn:Hr.
    + simpl in Hx. subst x.
      destruct (is_ws a) eqn:Ha.
      * exists (String a t). simpl. rewrite Ha, Ht. split; reflexivity.
      * exists t. split; [exact Ht|reflexivity].
    + exists t. split; [exact Ht|]. simpl. rewrite Hx at 1. reflexivity.
Qed.

(** Adding [u] in front of the first line. *)
Definition prepend (u : string) (ls : list string) : list string :=
  match ls with
  | [] => [u]
  | l :: ls' => (u ++ l)%string :: ls'
  end.

Lemma split_nl_cons_prepend (a : ascii) (s : string) :
  split_nl (String a s) =
  if Ascii.eqb a nl then EmptyString :: split_nl s
  else prepend (String a EmptyString) (split_nl s).
Proof.
  rewrite split_nl_cons. destruct (Ascii.eqb a nl); [reflexivity|].
  destruct (split_nl s); reflexivity.
Qed.

Lemma prepend_prepend (u v : string) (ls : list string) :
  prepend u (prepend v ls) = prepend (u ++ v) ls.
Proof.
  destruct ls; simpl; [reflexivity|]. now rewrite string_app_assoc.
Qed.

Lemma prepend_empty_split (s : string) : prepend EmptyString (split_nl s) = split_nl s.
Proof.
  pose proof (split_on_not_nil nl s) as H. unfold split_nl in *.
  destruct (split_on nl s); [contradiction|reflexivity].
Qed.

(** ** The first declaration line (the claim's terms) *)

(** A trimmed line that is blank or a [%%] comment. *)
Definition skip_line (t : string) : bool := String.eqb t EmptyString || starts_with "%%" t.
Arguments skip_line : simpl never.

(** The first line that is neither blank nor, once trimmed, a [%%]
    comment; returned trimmed. *)
Fixpoint first_decl_line (lines : list string) : option string :=
  match lines with
  | [] => None
  | l :: rest =>
      let t := trim l in
      if skip_line t then first_decl_line rest else Some t
  end.

Lemma first_decl_line_prepend_ws (a : ascii) (ls : list string) :
  is_ws a = true ->
  first_decl_line (prepend (String a EmptyString) ls) = first_decl_line ls.
Proof.
  intros Ha. destruct ls as [|l ls]; simpl.
  - unfold trim. simpl. rewrite Ha. reflexivity.
  - rewrite trim_ws_cons by exact Ha. reflexivity.
Qed.

Lemma first_decl_line_ws_tail (t : string) :
  all_ws t = true ->
  forall u, first_decl_line (prepend u (split_nl t)) = first_decl_line [u].
Proof.
  induction t as [|a t IH]; intros Ht u.
  - simpl. now rewrite string_app_nil_r.
  - simpl in Ht. apply andb_prop in Ht as [Ha Ht].
    rewrite split_nl_cons_prepend. destruct (Ascii.eqb a nl).
    + simpl. rewrite string_app_nil_r.
      destruct (skip_line (trim u)); [|reflexivity].
      rewrite <- (prepend_empty_split t), IH by exact Ht. reflexivity.
    + rewrite prepend_prepend, IH by exact Ht. simpl.
      rewrite trim_app_ws by (simpl; rewrite Ha; reflexivity). reflexivity.
Qed.

Lemma first_decl_line_app_ws (t : string) :
  all_ws t = true ->
  forall p u, first_decl_line (prepend u (split_nl (p ++ t))) =
              first_decl_line (prepend u (split_nl p)).
Proof.
  intros Ht p. induction p as [|a p IH]; intros u.
  - simpl (EmptyString ++ t)%string. rewrite first_decl_line_ws_tail by exact Ht.
    simpl. now rewrite string_app_nil_r.
  - simpl (String a p ++ t)%string.
    rewrite !split_nl_cons_prepend. destruct (Ascii.eqb a nl).
    + simpl. rewrite !string_app_nil_r.
      destruct (skip_line (trim u)); [|reflexivity].
      rewrite <- (prepend_empty_split (p ++ t)), <- (prepend_empty_split p).
      apply IH.
    + rewrite !prepend_prepend. apply IH.
Qed.

(** Trimming the whole block does not change its first declaration line. *)
Lemma first_decl_line_trim (s : string) :
  first_decl_line (split_nl (trim s)) = first_decl_line (split_nl s).
Proof.
  unfold trim.
  assert (Hl : forall x, first_decl_line (split_nl (ltrim x)) = first_decl_line (split_nl x)).
  { induction x as [|a x IH]; simpl; [reflexivity|].
    destruct (is_ws a) eqn:Ha; [|reflexivity].
    rewrite IH, split_nl_cons_prepend. destruct (Ascii.eqb a nl).
    - reflexivity.
    - rewrite first_decl_line_prepend_ws by exact Ha. reflexivity. }
  rewrite <- (Hl s).
  destruct (rtrim_split (ltrim s)) as [t [Ht Hx]].
  rewrite Hx at 2.
  rewrite <- (prepend_empty_split (rtrim (ltrim s) ++ t)), <- (prepend_empty_split (rtrim (ltrim s))).
  symmetry. apply first_decl_line_app_ws. exact Ht.
Qed.

Lemma found_type_first_decl (lines : list string) :
  found_type lines =
  match first_decl_line lines with
  | Some t => matches false Patterns.diagram_type t
  | None => false
  end.
Proof.
  induction lines as [|l lines IH]; [reflexivity|].
  change (found_type (l :: lines)) with
    (if skip_line (trim l) then found_type lines
     else matches false Patterns.diagram_type (trim l)).
  cbn [first_decl_line]. destruct (skip_line (trim l)); [exact IH|reflexivity].
Qed.

(** ** The diagram-type pattern *)

(** In the claim's terms: a letter followed by any number of letters,
    digits, [_] or [-]; the run after the letter may be empty, so this is
    "the line begins with an ASCII letter". *)
Definition begins_with_identifier (t : string) : bool :=
  match t with
  | String c _ => is_alpha c
  | EmptyString => false
  end.

Lemma diagram_type_off_start (f : nat) (t : string) (i : nat) (cp : caps) (k : cont) :
  (0 < i)%nat -> mt f false Patterns.diagram_type t i cp k = None.
Proof.
  intros Hi. destruct f as [|[|f]]; [reflexivity|reflexivity|].
  simpl. destruct i; [lia|reflexivity].
Qed.

Lemma diagram_type_at_start (f : nat) (t : string) :
  (5 <= f)%nat ->
  (mt f false Patterns.diagram_type t 0 [] final <> None <-> begins_with_identifier t = true).
Proof.
  intros Hf. destruct f as [|[|[|[|[|f]]]]]; try lia.
  destruct t as [|c t]; simpl.
  - split; [intros H; exfalso; apply H; reflexivity|discriminate].
  - destruct (is_alpha c).
    + split; [reflexivity|intros _].
      (* the greedy star falls back on the empty iteration *)
      match goal with
      | |- (match ?m with Some x => _ | None => _ end) <> None => destruct m; discriminate
      end.
    + split; [intros H; exfalso; apply H; reflexivity|discriminate].
Qed.

Lemma diagram_type_search_rest (fuel : nat) (t : string) (i n : nat) :
  (0 < i)%nat -> search_from fuel false Patterns.diagram_type t i n = None.
Proof.
  revert i. induction n as [|n IH]; intros i Hi; simpl;
    rewrite diagram_type_off_start by exact Hi; [reflexivity|].
  apply IH. lia.
Qed.

(** The source's pattern [/^([a-zA-Z][a-zA-Z0-9_-]...)/] matches exactly
    the lines that begin with an ASCII letter. *)
Lemma diagram_type_matches (t : string) :
  matches false Patterns.diagram_type t = begins_with_identifier t.
Proof.
  unfold matches, exec, exec_from. simpl (String.length t <? 0)%nat.
  assert (Hfuel : (5 <= fuel_for Patterns.diagram_type t)%nat)
    by (unfold fuel_for; simpl re_size; lia).
  pose proof (diagram_type_at_start _ t Hfuel) as Hat.
  destruct (String.length t - 0)%nat as [|n] eqn:Hn; simpl search_from.
  - destruct (mt _ false Patterns.diagram_type t 0 [] final) as [[j c]|];
      destruct (begins_with_identifier t); try reflexivity.
    + symmetry; apply Hat; discriminate.
    + exfalso. apply (proj2 Hat); reflexivity.
  - destruct (mt _ false Patterns.diagram_type t 0 [] final) as [[j c]|].
    + symmetry. apply Hat. discriminate.
    + rewrite diagram_type_search_rest by lia.
      destruct (begins_with_identifier t); [|reflexivity].
      exfalso. apply (proj2 Hat); reflexivity.
Qed.

(** In the claim's terms: the block's first declaration line exists and
    begins with an identifier. *)
Definition declares_type (code : string) : bool :=
  match first_decl_line (split_nl code) with
  | Some t => begins_with_identifier t
  | None => false
  end.

Lemma validateBasicBlock_nonempty (block : CodeBlock) :
  trim (code block) <> EmptyString ->
  match validateBasicBlock block with
  | Ok _ => declares_type (code block) = true
  | Err e => declares_type (code block) = false /\
             ValidationError.lineNumber e = startLine block /\
             ValidationError.detail e = Some missing_type_detail
  end.
Proof.
  intros H. unfold validateBasicBlock, checkNotEmpty.
  destruct (String.eqb_spec (trim (code block)) EmptyString) as [E|_]; [contradiction|].
  cbn [code].
  rewrite found_type_first_decl, first_decl_line_trim.
  unfold declares_type.
  destruct (first_decl_line (split_nl (code block))) as [t|].
  - rewrite diagram_type_matches.
    destruct (begins_with_identifier t); [reflexivity|].
    repeat split.
  - repeat split.
Qed.

(** ** C6 *)

(** C6: in basic mode the mermaid parser is never called; every block is
    checked and its error (if any) reported, whatever the errors of the
    blocks before it; a block that passes the empty check gets the
    missing-diagram-type error, at its start line, exactly when its first
    non-blank line not starting with [%%] does not begin with a letter
    followed by letters, digits, [_] or [-], or when there is no such line. *)
Theorem basic_mode_checks (mermaid_parse : string -> option Thrown)
        (order : list nat) (tokens : list Token.t) :
  fst (rule mermaid_parse (Some true) order tokens) = [] /\
  snd (rule mermaid_parse (Some true) order tokens) =
    flat_map (fun block => match validateBasicBlock block with
                           | Err e => [e]
                           | Ok _ => []
                           end) (extractMermaidBlocks tokens) /\
  (forall block, trim (code block) <> EmptyString ->
     match validateBasicBlock block with
     | Ok _ => declares_type (code block) = true
     | Err e => declares_type (code block) = false /\
                ValidationError.lineNumber e = startLine block /\
                ValidationError.detail e = Some missing_type_detail
     end).
Proof.
  split; [reflexivity|].
  split; [reflexivity|].
  exact validateBasicBlock_nonempty.
Qed.

Definition commented_block : CodeBlock :=
  mkBlock (join_nl ["  "; "%% a comment"; "  1flowchart LR"; "A --> B"]) 4.

Lemma basic_mode_checks_witness :
  trim (code commented_block) <> EmptyString /\
  match validateBasicBlock commented_block with
  | Ok _ => declares_type (code commented_block) = true
  | Err e => declares_type (code commented_block) = false /\
             ValidationError.lineNumber e = startLine commented_block /\
             ValidationError.detail e = Some missing_type_detail
  end.
Proof.
  split; [vm_compute; discriminate|].
  apply (proj2 (proj2 (basic_mode_checks (fun _ => None) [] []))).
  vm_compute; discriminate.
Defined.

(** ** The translator as an ordered table (the spec's cascade) *)

(** A rule of the cascade: when the predicate holds of the message, the
    handler produces the diagnostic. *)
Definition TranslatorRule : Type :=
  ((string -> bool) * (string -> string -> ParsedError.t))%type.

(** Try the rules top to bottom; the first whose predicate holds decides;
    [default] when none does. *)
Fixpoint first_match (rules : list TranslatorRule)
         (default : string -> string -> ParsedError.t) (msg code : string)
  : ParsedError.t :=
  match rules with
  | [] => default msg code
  | (p, h) :: rest => if p msg then h msg code else first_match rest default msg code
  end.

Definition default_diagnostic (msg _code : string) : ParsedError.t :=
  ParsedError.mk None (Some (substring0 150 (first_line msg)))
    (Some "Check the diagram syntax for errors") None.

(** A handler that reads the match of its pattern. *)
Definition on_match (ci : bool) (r : re)
           (h : string -> rmatch -> string -> ParsedError.t)
  : string -> string -> ParsedError.t :=
  fun msg code =>
    match exec ci r msg with
    | Some m => h msg m code
    | None => default_diagnostic msg code
    end.

(** The six rules, in the order of the spec. *)
Definition translator_rules : list TranslatorRule := [
  (matches true Patterns.parse_error,
   on_match true Patterns.parse_error (fun msg m _ => handleParseError msg m));
  (matches true Patterns.lexical_error,
   on_match true Patterns.lexical_error (fun msg m _ =>
     ParsedError.mk (Some (parseInt10 (group msg m 1)))
       (Some "Unrecognized text or keyword")
       (Some "Check for typos, invalid keywords, or unsupported syntax") None));
  (includes "No diagram type detected", fun _ code => handleNoDiagramType code);
  (matches false Patterns.unexpected_char,
   on_match false Patterns.unexpected_char handleUnexpectedChar);
  (matches true Patterns.expecting_token,
   on_match true Patterns.expecting_token (fun msg m _ =>
     ParsedError.mk (Some 1) (Some ("Expected " ++ group msg m 1)%string)
       (Some "Check the diagram syntax and structure") None));
  (includes "Expecting: one of these possible", fun _ _ =>
     ParsedError.mk (Some 1) (Some "Invalid syntax")
       (Some "Check command syntax (e.g., branch name, checkout target)") None)
]%list.

(** ** C7 *)

(** C7: [parseErrorMessage] is the ordered cascade of its six patterns:
    the first pattern that matches decides the diagnostic alone; when none
    of the six matches, the result has no line and, as message, the first
    line of the raw message truncated to 150 characters. *)
Theorem parseErrorMessage_cascade :
  length translator_rules = 6%nat /\
  (forall msg code,
     parseErrorMessage msg code = first_match translator_rules default_diagnostic msg code) /\
  (forall msg code,
     forallb (fun rl => negb (fst rl msg)) translator_rules = true ->
     ParsedError.line (parseErrorMessage msg code) = None /\
     ParsedError.message (parseErrorMessage msg code) = Some (substring0 150 (first_line msg))).
Proof.
  assert (Hc : forall msg code,
             parseErrorMessage msg code = first_match translator_rules default_diagnostic msg code).
  { intros msg code.
    unfold parseErrorMessage, translator_rules, first_match, on_match, matches.
    destruct (exec true Patterns.parse_error msg); [reflexivity|].
    destruct (exec true Patterns.lexical_error msg); [reflexivity|].
    destruct (includes "No diagram type detected" msg); [reflexivity|].
    destruct (exec false Patterns.unexpected_char msg); [reflexivity|].
    destruct (exec true Patterns.expecting_token msg); [reflexivity|].
    destruct (includes "Expecting: one of these possible" msg); reflexivity. }
  split; [reflexivity|]. split; [exact Hc|].
  intros msg code Hnone. rewrite Hc.
  unfold translator_rules in *. simpl in Hnone. simpl first_match.
  repeat match type of Hnone with
         | (negb ?b && _)%bool = true =>
             let E := fresh in
             destruct b eqn:E; [discriminate|]; simpl in Hnone
         end.
  split; reflexivity.
Qed.

Lemma parseErrorMessage_cascade_witness :
  forallb (fun rl => negb (fst rl (join_nl ["Unsupported markdown: list"; "at foo"])))
          translator_rules = true /\
  ParsedError.line (parseErrorMessage (join_nl ["Unsupported markdown: list"; "at foo"]) "x") = None /\
  ParsedError.message (parseErrorMessage (join_nl ["Unsupported markdown: list"; "at foo"]) "x") =
    Some (substring0 150 (first_line (join_nl ["Unsupported markdown: list"; "at foo"]))).
Proof.
  split; [vm_compute; reflexivity|].
  apply (proj2 (proj2 parseErrorMessage_cascade)). vm_compute. reflexivity.
Defined.

(** ** Matches never end before they start *)





(** ** C4 *)




Lemma count_nl_nonneg (s : string) : 0 <= count_nl s.
Proof. induction s as [|a s IH]; simpl; [lia|]. destruct (Ascii.eqb a nl); lia. Qed.










(** ** [getMermaid] under full mode's fan-out *)

Module MermaidSetupFacts.
Import MermaidSetup.

Lemma run_app (o1 o2 : list nat) (st : state) (tasks : list pc) :
  run (o1 ++ o2) st tasks = let '(st', t') := run o1 st tasks in run o2 st' t'.
Proof.
  revert st tasks; induction o1 as [|i o1 IH]; intros st tasks; simpl; [reflexivity|].
  destruct (nth_error tasks i) as [p|]; [|apply IH].
  destruct (step_task st p) as [st' p']. apply IH.
Qed.

(** The synchronous starts once the DOM shim is in place: each call passes
    the [mermaidInstance] check, starts an import and suspends. *)
Lemma run_starts (m : nat) :
  forall k st tasks,
    mermaidInstance st = false -> windowDefined st = true ->
    (forall j, (k <= j < k + m)%nat -> nth_error tasks j = Some Fresh) ->
    let '(st', t') := run (seq k m) st tasks in
    st' = mk false true (domSetups st) (importsStarted st + m) (initializeCalls st) /\
    (forall j, nth_error t' j =
               if ((k <=? j) && (j <? k + m))%nat then Some AwaitingImport
               else nth_error tasks j).
Proof.
  induction m as [|m IH]; intros k st tasks Hi Hw Hf; simpl.
  - split.
    + destruct st; simpl in *; subst. f_equal. lia.
    + intros j. destruct ((k <=? j) && (j <? k + 0))%nat eqn:E; [|reflexivity].
      apply andb_prop in E as [E1 E2]. apply Nat.leb_le in E1. apply Nat.ltb_lt in E2. lia.
  - rewrite (Hf k) by lia. simpl. unfold start. rewrite Hi, Hw.
    set (st1 := mk (mermaidInstance st) (windowDefined st) (domSetups st)
                   (S (importsStarted st)) (initializeCalls st)).
    set (t1 := list_set tasks k AwaitingImport).
    assert (Hk : (k < length tasks)%nat) by (apply nth_error_Some; rewrite (Hf k) by lia; discriminate).
    specialize (IH (S k) st1 t1).
    destruct (run (seq (S k) m) st1 t1) as [st' t'].
    destruct IH as [Hst Ht].
    + unfold st1; simpl; exact Hi.
    + unfold st1; simpl; exact Hw.
    + intros j Hj. unfold t1. rewrite nth_error_list_set.
      replace (Nat.eqb k j) with false by (symmetry; apply Nat.eqb_neq; lia).
      apply Hf. lia.
    + split.
      * rewrite Hst. unfold st1. simpl. try rewrite Hi. f_equal. lia.
      * intros j. rewrite Ht. unfold t1. rewrite nth_error_list_set.
        destruct (Nat.eqb_spec k j) as [<-|Hne].
        -- replace ((S k <=? k) && (k <? S k + m))%nat with false
             by (symmetry; apply andb_false_iff; left; apply Nat.leb_gt; lia).
           replace ((k <=? k) && (k <? k + S m))%nat with true
             by (symmetry; apply andb_true_iff; split; [apply Nat.leb_le|apply Nat.ltb_lt]; lia).
           replace (k <? length tasks)%nat with true by (symmetry; apply Nat.ltb_lt; exact Hk).
           reflexivity.
        -- destruct (Nat.leb_spec (S k) j); destruct (Nat.leb_spec k j);
             destruct (Nat.ltb_spec j (S k + m)); destruct (Nat.ltb_spec j (k + S m));
             simpl; try reflexivity; lia.
Qed.

(** The resumptions: each suspended call initialises mermaid. *)
Lemma run_resumes (order : list nat) :
  forall st tasks,
    NoDup order ->
    (forall i, In i order -> nth_error tasks i = Some AwaitingImport) ->
    let st' := fst (run order st tasks) in
    initializeCalls st' = (initializeCalls st + length order)%nat /\
    domSetups st' = domSetups st /\ importsStarted st' = importsStarted st.
Proof.
  induction order as [|i order IH]; intros st tasks Hnd Hin; simpl.
  - repeat split; lia.
  - rewrite (Hin i) by (left; reflexivity). simpl.
    inversion Hnd as [|? ? Hni Hnd']; subst.
    destruct (IH (mk true (windowDefined st) (domSetups st) (importsStarted st)
                     (S (initializeCalls st)))
                 (list_set tasks i Returned) Hnd') as [H1 [H2 H3]].
    + intros j Hj. rewrite nth_error_list_set.
      replace (Nat.eqb i j) with false
        by (symmetry; apply Nat.eqb_neq; intros ->; contradiction).
      apply Hin. right. exact Hj.
    + simpl in H1, H2, H3. repeat split; lia.
Qed.

(** On a fresh process, full mode's [n >= 1] concurrent first calls of
    [getMermaid] shim the DOM once but run the import and
    [mermaid.initialize] [n] times, whatever order the imports settle in. *)
Lemma first_full_run_counts (n : nat) (order : list nat) :
  (1 <= n)%nat -> Permutation order (seq 0 n) ->
  let st := fst (first_full_run n order) in
  initializeCalls st = n /\ domSetups st = 1%nat /\ importsStarted st = n.
Proof.
  intros Hn Hp. unfold first_full_run.
  destruct n as [|n]; [lia|].
  rewrite run_app.
  change (seq 0 (S n)) with (0%nat :: seq 1 n).
  simpl run at 1. unfold start. simpl.
  pose proof (run_starts n 1 (mk false true 1 1 0) (AwaitingImport :: repeat Fresh n)
                eq_refl eq_refl) as Hs.
  destruct (run (seq 1 n) (mk false true 1 1 0) (AwaitingImport :: repeat Fresh n))
    as [st1 t1].
  destruct Hs as [Hst Ht].
  { intros j Hj. destruct j as [|j]; [lia|]. simpl.
    apply nth_error_repeat. lia. }
  subst st1. simpl in *.
  destruct (run_resumes order (mk false true 1 (S n) 0) t1) as [H1 [H2 H3]].
  - apply (Permutation_NoDup (Permutation_sym Hp)). exact (seq_NoDup (S n) 0).
  - intros i Hi. apply (Permutation_in _ Hp) in Hi. apply (in_seq (S n) 0) in Hi.
    rewrite Ht. destruct i as [|i].
    + reflexivity.
    + replace (S i <? S n)%nat with true by (symmetry; apply Nat.ltb_lt; lia).
      reflexivity.
  - simpl in H1, H2, H3. rewrite (Permutation_length Hp) in H1. simpl in H1. rewrite length_seq in H1.
    repeat split; lia.
Qed.

End MermaidSetupFacts.

(** A document with two non-empty mermaid fences. *)
Definition two_flowcharts : list Token.t :=
  [Token.mk "fence" "mermaid" (join_nl ["flowchart LR"; "A --> B"]) 1;
   Token.mk "fence" "mermaid" (join_nl ["graph TD"; "C --> D"]) 6].

(** C5 (code bug). The claim: the heavy setup (DOM shim and
    [mermaid.initialize]) runs at most once per process, also for two
    first-time validations that start before it completes. In the code,
    [getMermaid] memoizes only the finished instance: validating
    [two_flowcharts] in full mode on a fresh process makes two calls, both
    pass the [mermaidInstance] check before either import settles, and
    whatever order the imports settle in, the import and [mermaid.initialize]
    run twice (only the DOM shim, guarded synchronously, runs once). *)
Theorem getMermaid_duplicate_initialize (order : list nat) :
  Permutation order (seq 0 (getMermaid_calls two_flowcharts)) ->
  getMermaid_calls two_flowcharts = 2%nat /\
  let st := fst (MermaidSetup.first_full_run (getMermaid_calls two_flowcharts) order) in
  MermaidSetup.initializeCalls st = 2%nat /\
  MermaidSetup.importsStarted st = 2%nat /\
  MermaidSetup.domSetups st = 1%nat.
Proof.
  intros Hp.
  assert (Hc : getMermaid_calls two_flowcharts = 2%nat) by (vm_compute; reflexivity).
  rewrite Hc in *. split; [reflexivity|].
  destruct (MermaidSetupFacts.first_full_run_counts 2 order) as [H1 [H2 H3]];
    [lia | exact Hp |].
  simpl. repeat split; assumption.
Qed.

Lemma getMermaid_duplicate_initialize_witness :
  Permutation [1; 0]%nat (seq 0 (getMermaid_calls two_flowcharts)) /\
  getMermaid_calls two_flowcharts = 2%nat /\
  let st := fst (MermaidSetup.first_full_run (getMermaid_calls two_flowcharts) [1; 0]%nat) in
  MermaidSetup.initializeCalls st = 2%nat /\
  MermaidSetup.importsStarted st = 2%nat /\
  MermaidSetup.domSetups st = 1%nat.
Proof.
  assert (Hp : Permutation [1; 0]%nat (seq 0 (getMermaid_calls two_flowcharts))).
  { vm_compute. apply perm_swap. }
  split; [exact Hp|]. apply (getMermaid_duplicate_initialize [1; 0]%nat Hp).
Defined.

(** ** Token hints *)

(** A translator message reporting the unexpected token [tok]. *)
Definition got_message (tok : string) : string :=
  join_nl ["Parse error on line 1:"; "A --> B"; "------^";
           ("Expecting 'SEMI', got '" ++ tok ++ "'")%string].

Definition option_string_eqb (a b : option string) : bool :=
  match a, b with
  | Some x, Some y => String.eqb x y
  | None, None => true
  | _, _ => false
  end.

(** Every own entry of [TOKEN_HINTS] is reported with its configured
    message and hint. *)
Lemma token_hints_own_entries :
  forallb (fun e =>
             let p := parseErrorMessage (got_message (fst e)) "A --> B" in
             option_string_eqb (ParsedError.message p) (Some (fst (snd e))) &&
             option_string_eqb (ParsedError.hint p) (Some (snd (snd e))))
          TOKEN_HINTS = true.
Proof. vm_compute. reflexivity. Qed.

Definition constructor_message : string := got_message "constructor".

(** C8 (code bug). The claim: a token absent from [TOKEN_HINTS] is
    reported as [Syntax error: unexpected "TOKEN"] with the generic hint.
    In the code, [TOKEN_HINTS[token] || null] also finds the properties every
    object inherits from [Object.prototype]: for the token [constructor],
    absent from the table, the lookup yields the [Object] function, so the
    parsed error has no message and no hint, and the reported detail is
    [undefined] instead of the generic message. *)
Theorem token_hint_inherited_property :
  ~ In "constructor" (map fst TOKEN_HINTS) /\
  ParsedError.line (parseErrorMessage constructor_message "A --> B") = Some 1 /\
  ParsedError.message (parseErrorMessage constructor_message "A --> B") = None /\
  ParsedError.hint (parseErrorMessage constructor_message "A --> B") = None /\
  ParsedError.message (parseErrorMessage constructor_message "A --> B")
    <> Some ("Syntax error: unexpected " ++ dq ++ "constructor" ++ dq)%string /\
  ValidationError.detail
    (toValidationError (parseErrorMessage constructor_message "A --> B") 3 "A --> B") = None.
Proof.
  split.
  - vm_compute. intuition discriminate.
  - vm_compute. repeat split; discriminate.
Qed.

(** Witness for C9: [scenario4_code] at offset 13, the start of its
    second line. *)
Lemma unexpected_char_line_counts_newlines_witness :
  (0 <= 13 <= Z.of_nat (String.length scenario4_code)) /\
  unexpected_char_line scenario4_code 13 = calculateKatexErrorLine scenario4_code 13 1 /\
  unexpected_char_line scenario4_code 13 = 1 + count_nl (substring0 13 scenario4_code).
Proof.
  assert (H : 0 <= 13 <= Z.of_nat (String.length scenario4_code)) by (vm_compute; split; discriminate).
  split; [exact H|]. apply (unexpected_char_line_counts_newlines scenario4_code 13 H).
Defined.

(* ------------------------------------------------------------------ *)
(** ** Further properties of both rules *)

Local Open Scope string_scope.
Local Open Scope Z_scope.

Lemma all_ws_app (u v : string) : all_ws (u ++ v) = all_ws u && all_ws v.
Proof. induction u as [|a u IH]; simpl; [reflexivity|]. now rewrite IH, andb_assoc. Qed.

Lemma rtrim_empty_all_ws (t : string) : rtrim t = EmptyString -> all_ws t = true.
Proof.
  induction t as [|a t IH]; simpl; [reflexivity|].
  destruct (rtrim t) as [|b r]; [|discriminate].
  destruct (is_ws a); [|discriminate]. intros _. simpl. exact (IH eq_refl).
Qed.

Lemma ltrim_split (s : string) : exists u, all_ws u = true /\ s = (u ++ ltrim s)%string.
Proof.
  induction s as [|a s IH]; simpl.
  - exists EmptyString. split; reflexivity.
  - destruct (is_ws a) eqn:Ha.
    + destruct IH as [u [Hu Hs]]. exists (String a u). simpl. rewrite Ha, Hu.
      split; [reflexivity|]. rewrite Hs at 1. reflexivity.
    + exists EmptyString. split; reflexivity.
Qed.

Lemma trim_empty_iff (s : string) : trim s = EmptyString <-> all_ws s = true.
Proof.
  split; [|apply trim_all_ws].
  unfold trim. intros H. apply rtrim_empty_all_ws in H.
  destruct (ltrim_split s) as [u [Hu Hs]]. rewrite Hs, all_ws_app, Hu, H. reflexivity.
Qed.

(** [ltrim s] is empty or begins with a non-blank. *)
Definition no_lead_ws (s : string) : Prop :=
  match s with EmptyString => True | String a _ => is_ws a = false end.

Lemma ltrim_no_lead (s : string) : no_lead_ws (ltrim s).
Proof.
  induction s as [|a s IH]; simpl; [exact I|].
  destruct (is_ws a) eqn:Ha; [exact IH|exact Ha].
Qed.

Lemma ltrim_id (s : string) : no_lead_ws s -> ltrim s = s.
Proof. destruct s as [|a s]; simpl; [reflexivity|]. intros H. now rewrite H. Qed.

Lemma rtrim_no_lead (s : string) : no_lead_ws s -> no_lead_ws (rtrim s).
Proof.
  destruct s as [|a s]; simpl; [tauto|]. intros Ha.
  destruct (rtrim s); [rewrite Ha|]; exact Ha.
Qed.

Lemma rtrim_cons (a : ascii) (s : string) :
  rtrim (String a s) =
  match rtrim s with
  | EmptyString => if is_ws a then EmptyString else String a EmptyString
  | _ => String a (rtrim s)
  end.
Proof. reflexivity. Qed.

Lemma rtrim_idem (s : string) : rtrim (rtrim s) = rtrim s.
Proof.
  induction s as [|a s IH]; [reflexivity|].
  rewrite (rtrim_cons a s). destruct (rtrim s) as [|b r] eqn:Hr.
  - destruct (is_ws a) eqn:Ha; [reflexivity|]. simpl. now rewrite Ha.
  - rewrite rtrim_cons, IH. reflexivity.
Qed.

(** [s.trim().trim() === s.trim()] *)
Lemma trim_idem (s : string) : trim (trim s) = trim s.
Proof.
  unfold trim at 1. rewrite ltrim_id by (apply rtrim_no_lead, ltrim_no_lead).
  unfold trim. apply rtrim_idem.
Qed.

(** [checkNotEmpty] and [checkKatexNotEmpty] reject exactly the blocks whose
    code is whitespace only, with their fixed message at the block's start
    line; any other block is accepted as its trimmed code at the same start
    line, and checking the accepted block again returns it unchanged. *)
Theorem empty_checks_trim (block : CodeBlock) :
  (isErr (checkNotEmpty block) = all_ws (code block) /\
   (forall e, checkNotEmpty block = Err e ->
      e = ValidationError.mk (startLine block) (Some empty_diagram_detail) None) /\
   (forall b, checkNotEmpty block = Ok b ->
      b = mkBlock (trim (code block)) (startLine block) /\ checkNotEmpty b = Ok b)) /\
  (isErr (checkKatexNotEmpty block) = all_ws (code block) /\
   (forall e, checkKatexNotEmpty block = Err e ->
      e = ValidationError.mk (startLine block) (Some empty_math_detail) None) /\
   (forall b, checkKatexNotEmpty block = Ok b ->
      b = mkBlock (trim (code block)) (startLine block) /\ checkKatexNotEmpty b = Ok b)).
Proof.
  unfold checkNotEmpty, checkKatexNotEmpty.
  destruct (String.eqb_spec (trim (code block)) EmptyString) as [He|Hne].
  - assert (Hw : all_ws (code block) = true) by (apply trim_empty_iff; exact He).
    rewrite Hw. split; (split; [reflexivity|split]);
      intros x Hx; inversion Hx; reflexivity.
  - assert (Hw : all_ws (code block) = false).
    { destruct (all_ws (code block)) eqn:E; [|reflexivity].
      exfalso. apply Hne. apply trim_empty_iff. exact E. }
    rewrite Hw.
    split; (split; [reflexivity|split]); [discriminate| |discriminate|];
      intros x Hx; inversion Hx; subst; split; [reflexivity| |reflexivity|];
      cbn [code startLine]; rewrite trim_idem;
      (destruct (String.eqb_spec (trim (code block)) EmptyString) as [He|_];
       [contradiction|reflexivity]).
Qed.

Lemma find_all_false {A : Type} (f : A -> bool) (l : list A) :
  (forall x, In x l -> f x = false) -> find f l = None.
Proof.
  induction l as [|x l IH]; intros H; simpl; [reflexivity|].
  rewrite (H x (or_introl eq_refl)). apply IH. intros y Hy. apply H. right. exact Hy.
Qed.

(** [getTokenHint] returns, for every key of [TOKEN_HINTS], that entry's
    message and hint (no key is shadowed by an earlier one); for a token that
    is neither a key nor a property inherited from [Object.prototype] it
    returns [null]. *)
Theorem getTokenHint_lookup (tok : string) :
  (forall m h, In (tok, (m, h)) TOKEN_HINTS -> getTokenHint tok = Some (Some m, Some h)) /\
  (~ In tok (map fst TOKEN_HINTS) -> ~ In tok object_prototype_props -> getTokenHint tok = None).
Proof.
  split.
  - intros m h H. unfold TOKEN_HINTS in H.
    repeat (destruct H as [H|H]; [injection H as <- <- <-; reflexivity|]).
    destruct H.
  - intros Hn Hp. unfold getTokenHint.
    rewrite find_all_false.
    + destruct (existsb (String.eqb tok) object_prototype_props) eqn:E; [|reflexivity].
      apply existsb_exists in E as [x [Hx Ex]]. apply String.eqb_eq in Ex. subst x.
      contradiction.
    + intros [k v] Hk. simpl. destruct (String.eqb_spec k tok) as [->|]; [|reflexivity].
      exfalso. apply Hn. apply (in_map fst _ _ Hk).
Qed.

Lemma getTokenHint_lookup_witness :
  In ("EOF", ("Unexpected end of diagram",
           "Statement is incomplete - add missing node, message, or closing element")) TOKEN_HINTS /\
  getTokenHint "EOF" = Some (Some "Unexpected end of diagram",
           Some "Statement is incomplete - add missing node, message, or closing element") /\
  ~ In "ARROW" (map fst TOKEN_HINTS) /\ ~ In "ARROW" object_prototype_props /\
  getTokenHint "ARROW" = None.
Proof.
  assert (H1 : In ("EOF", ("Unexpected end of diagram",
           "Statement is incomplete - add missing node, message, or closing element")) TOKEN_HINTS)
    by (vm_compute; tauto).
  assert (H2 : ~ In "ARROW" (map fst TOKEN_HINTS))
    by (vm_compute; intuition discriminate).
  assert (H3 : ~ In "ARROW" object_prototype_props)
    by (vm_compute; intuition discriminate).
  split; [exact H1|]. split; [apply (proj1 (getTokenHint_lookup "EOF")); exact H1|].
  split; [exact H2|]. split; [exact H3|].
  apply (proj2 (getTokenHint_lookup "ARROW")); assumption.
Defined.

(** Offsets before the code start fall on line 1. *)
Lemma walk_lines_before (code : string) (pos line offset : Z) :
  offset <= pos -> walk_lines (split_nl code) offset pos line = line.
Proof.
  intros H. pose proof (split_on_not_nil nl code) as Hn. unfold split_nl.
  destruct (split_on nl code) as [|w ws]; [contradiction|].
  simpl. rewrite (proj2 (Z.leb_le _ _)) by lia. reflexivity.
Qed.

Lemma walk_lines_past (code : string) :
  forall pos line offset,
    pos + Z.of_nat (String.length code) < offset ->
    walk_lines (split_nl code) offset pos line = line + count_nl code + 1.
Proof.
  induction code as [|a s IH]; intros pos line offset H.
  - simpl in *. rewrite (proj2 (Z.leb_gt _ _)) by lia. simpl. lia.
  - simpl String.length in H. rewrite Nat2Z.inj_succ in H.
    rewrite split_nl_cons. simpl count_nl.
    destruct (Ascii.eqb a nl) eqn:Ha.
    + simpl walk_lines. rewrite (proj2 (Z.leb_gt _ _)) by lia.
      rewrite IH by lia. lia.
    + pose proof (split_on_not_nil nl s) as Hnn. fold (split_nl s) in Hnn.
      destruct (split_nl s) as [|w ws] eqn:Hs; [contradiction|].
      rewrite walk_lines_shift, IH by lia. lia.
Qed.

(** The line walk of [handleUnexpectedChar] with an offset out of range: an
    offset at or before 0 gives line 1, and an offset past the end of the
    code gives the line after its last line ([count_nl code + 2]). *)
Theorem unexpected_char_line_out_of_range (code : string) (offset : Z) :
  (offset <= 0 -> unexpected_char_line code offset = 1) /\
  (Z.of_nat (String.length code) < offset ->
     unexpected_char_line code offset = count_nl code + 2).
Proof.
  unfold unexpected_char_line. split; intros H.
  - apply walk_lines_before. exact H.
  - rewrite walk_lines_past by lia. lia.
Qed.

Lemma unexpected_char_line_out_of_range_witness :
  (-3 <= 0 /\ unexpected_char_line scenario4_code (-3) = 1) /\
  (Z.of_nat (String.length scenario4_code) < 100 /\
   unexpected_char_line scenario4_code 100 = count_nl scenario4_code + 2).
Proof.
  split.
  - split; [lia|]. apply (proj1 (unexpected_char_line_out_of_range scenario4_code (-3))). lia.
  - assert (H : Z.of_nat (String.length scenario4_code) < 100) by (vm_compute; reflexivity).
    split; [exact H|]. apply (proj2 (unexpected_char_line_out_of_range scenario4_code 100)).
    exact H.
Defined.

Definition has_caret (l : string) : bool := includes "^" l.

Lemma extractContext_from_none (ls : list string) :
  forall prev, Forall (fun l => has_caret l = false) ls -> extractContext_from prev ls = None.
Proof.
  induction ls as [|l ls IH]; intros prev H; simpl; [reflexivity|].
  inversion H as [|? ? Hl Hls]; subst. unfold has_caret in Hl. rewrite Hl. apply IH, Hls.
Qed.

Lemma extractContext_from_skip (pre : list string) (p : string) (ls : list string) :
  forall prev,
    Forall (fun l => has_caret l = false) pre -> has_caret p = false ->
    extractContext_from prev (pre ++ p :: ls) = extractContext_from (Some p) ls.
Proof.
  induction pre as [|x pre IH]; intros prev Hpre Hp; simpl.
  - unfold has_caret in Hp. rewrite Hp. reflexivity.
  - inversion Hpre as [|? ? Hx Hpre']; subst. unfold has_caret in Hx. rewrite Hx.
    apply IH; assumption.
Qed.

(** [extractContext] takes its context from the line just before the first
    line that contains a caret [^], with a leading [...] removed and the
    result trimmed; it yields [null] when no line contains a caret, or when
    the first line does. *)
Theorem extractContext_caret_line (ls pre : list string) (p l : string) (rest : list string) :
  (Forall (fun x => has_caret x = false) ls -> extractContext ls = None) /\
  (has_caret l = true -> extractContext (l :: rest) = None) /\
  (Forall (fun x => has_caret x = false) (pre ++ [p]) -> has_caret l = true ->
     extractContext (pre ++ [p; l] ++ rest) =
     Some (trim (replace_first false Patterns.leading_ellipsis p))).
Proof.
  split; [|split].
  - intros H. apply extractContext_from_none. exact H.
  - intros H. unfold extractContext. simpl. unfold has_caret in H. rewrite H. reflexivity.
  - intros H Hl. apply Forall_app in H as [Hpre Hp]. inversion Hp; subst.
    unfold extractContext. simpl app. rewrite extractContext_from_skip by assumption.
    simpl. unfold has_caret in Hl. rewrite Hl. reflexivity.
Qed.

Lemma extractContext_caret_line_witness :
  (Forall (fun x => has_caret x = false) ["Parse error on line 1:"; "A --> B"] /\
   extractContext ["Parse error on line 1:"; "A --> B"] = None) /\
  (has_caret "---^" = true /\ extractContext ["---^"; "Expecting 'SEMI'"] = None) /\
  (Forall (fun x => has_caret x = false) ["Parse error on line 2:"; "...A --> B  "] /\
   has_caret "---^" = true /\
   extractContext (["Parse error on line 2:"] ++ ["...A --> B  "; "---^"] ++ ["Expecting 'SEMI'"]) =
     Some (trim (replace_first false Patterns.leading_ellipsis "...A --> B  "))).
Proof.
  assert (H1 : Forall (fun x => has_caret x = false) ["Parse error on line 1:"; "A --> B"])
    by (repeat constructor).
  assert (H2 : has_caret "---^" = true) by reflexivity.
  assert (H3 : Forall (fun x => has_caret x = false) ["Parse error on line 2:"; "...A --> B  "])
    by (repeat constructor).
  destruct (extractContext_caret_line ["Parse error on line 1:"; "A --> B"]
              ["Parse error on line 2:"] "...A --> B  " "---^" ["Expecting 'SEMI'"])
    as [P1 [P2 P3]].
  split; [split; [exact H1|exact (P1 H1)]|].
  split; [split; [exact H2|exact (P2 H2)]|].
  split; [exact H3|]. split; [exact H2|]. exact (P3 H3 H2).
Defined.

Lemma replace_all_from_no_amp (n : nat) (p rep s : string) :
  includes "&" s = false ->
  replace_all_from n (String "&" p) rep s = s.
Proof.
  revert s; induction n as [|n IH]; intros s Hs; [reflexivity|].
  destruct s as [|a s]; [reflexivity|].
  change (includes "&" (String a s)) with (starts_with "&" (String a s) || includes "&" s) in Hs.
  apply orb_false_iff in Hs as [Ha Hs].
  change (starts_with "&" (String a s)) with (Ascii.eqb "&" a && true) in Ha.
  rewrite andb_true_r in Ha.
  cbn [replace_all_from starts_with]. rewrite Ha. cbn [andb].
  rewrite IH by exact Hs. reflexivity.
Qed.

Lemma substring_full (s : string) : substring 0 (String.length s) s = s.
Proof. induction s as [|a s IH]; simpl; [reflexivity|]. now rewrite IH. Qed.

(** [decodeHtmlEntities] leaves a text that contains no [&] unchanged. *)
Theorem decodeHtmlEntities_no_amp (s : string) :
  includes "&" s = false -> decodeHtmlEntities s = s.
Proof.
  intros H. unfold decodeHtmlEntities, replace_all.
  rewrite (replace_all_from_no_amp _ "lt;" "<" s H).
  rewrite (replace_all_from_no_amp _ "gt;" ">" s H).
  rewrite (replace_all_from_no_amp _ "amp;" "&" s H).
  rewrite (replace_all_from_no_amp _ "quot;" dq s H).
  rewrite (replace_all_from_no_amp _ "#39;" (String sq_char EmptyString) s H).
  apply (replace_all_from_no_amp _ "nbsp;" " " s H).
Qed.

Lemma count_nl_prefix (n : nat) (s : string) :
  0 <= count_nl (substring 0 n s) <= count_nl s.
Proof.
  revert n; induction s as [|a s IH]; intros [|n]; simpl; try lia.
  - split; [lia|]. pose proof (count_nl_nonneg (String a s)). simpl in H. exact H.
  - specialize (IH n). destruct (Ascii.eqb a nl); lia.
Qed.

Lemma html_pattern_blocks_in_span (pattern : re) (html : string) (line0 : Z) :
  Forall (fun b => trim (code b) = code b /\
                   line0 <= startLine b <= line0 + count_nl html)
         (html_pattern_blocks pattern html line0).
Proof.
  unfold html_pattern_blocks. apply Forall_map. apply Forall_forall.
  intros m _. unfold block_of_match. cbn [code startLine]. split.
  - apply trim_idem.
  - pose proof (count_nl_prefix (m_start m) html). lia.
Qed.

Lemma flat_map_patterns_in_span (patterns : list re) (html : string) (line0 : Z) :
  Forall (fun b => trim (code b) = code b /\
                   line0 <= startLine b <= line0 + count_nl html)
         (flat_map (fun pattern => html_pattern_blocks pattern html line0) patterns).
Proof.
  apply Forall_forall. intros b Hb. apply in_flat_map in Hb as [p [_ Hb]].
  pose proof (html_pattern_blocks_in_span p html line0) as H.
  rewrite Forall_forall in H. exact (H b Hb).
Qed.

(** Every fragment [extractMermaidFromHtml] or [extractKatexFromHtml]
    extracts from an HTML block starting at line [line0] has trimmed code
    and a start line within the block's lines, from [line0] to [line0] plus
    the number of newlines of the block. *)
Theorem html_fragments_in_span (html : string) (line0 : Z) :
  Forall (fun b => trim (code b) = code b /\
                   line0 <= startLine b <= line0 + count_nl html)
         (extractMermaidFromHtml html line0) /\
  Forall (fun b => trim (code b) = code b /\
                   line0 <= startLine b <= line0 + count_nl html)
         (extractKatexFromHtml html line0).
Proof. split; apply flat_map_patterns_in_span. Qed.

Lemma In_list_set {A : Type} (l : list A) (i : nat) (x y : A) :
  In y (list_set l i x) -> In y l \/ y = x.
Proof.
  revert i; induction l as [|z l IH]; intros [|i]; simpl; try tauto.
  - intros [<-|H]; [right; reflexivity|left; right; exact H].
  - intros [<-|H]; [left; left; reflexivity|].
    destruct (IH i H) as [H'|H']; [left; right; exact H'|right; exact H'].
Qed.

(** Once [mermaidInstance] is set, no call of [getMermaid] that has not
    already reached its [await import] runs the DOM shim, the import or
    [mermaid.initialize] again, in any number and interleaving: the shared
    state stays as it is. *)
Theorem getMermaid_cached (order : list nat) :
  forall (st : MermaidSetup.state) (tasks : list MermaidSetup.pc),
    MermaidSetup.mermaidInstance st = true ->
    ~ In MermaidSetup.AwaitingImport tasks ->
    fst (MermaidSetup.run order st tasks) = st.
Proof.
  induction order as [|i order IH]; intros st tasks Hi Hn; simpl; [reflexivity|].
  destruct (nth_error tasks i) as [p|] eqn:Ep; [|apply IH; assumption].
  assert (Hp : p <> MermaidSetup.AwaitingImport).
  { intros ->. apply Hn. eapply nth_error_In. exact Ep. }
  assert (Hs : MermaidSetup.step_task st p = (st, MermaidSetup.Returned)).
  { destruct p; [unfold MermaidSetup.step_task, MermaidSetup.start; rewrite Hi| |];
      first [reflexivity | contradiction]. }
  rewrite Hs. apply IH; [exact Hi|].
  intros H. apply In_list_set in H as [H|H]; [contradiction|discriminate].
Qed.

Lemma getMermaid_cached_witness :
  MermaidSetup.mermaidInstance (MermaidSetup.mk true true 1 2 2) = true /\
  ~ In MermaidSetup.AwaitingImport (repeat MermaidSetup.Fresh 3) /\
  fst (MermaidSetup.run [2; 0; 1]%nat (MermaidSetup.mk true true 1 2 2)
         (repeat MermaidSetup.Fresh 3)) = MermaidSetup.mk true true 1 2 2.
Proof.
  assert (H1 : MermaidSetup.mermaidInstance (MermaidSetup.mk true true 1 2 2) = true)
    by reflexivity.
  assert (H2 : ~ In MermaidSetup.AwaitingImport (repeat MermaidSetup.Fresh 3))
    by (simpl; intuition discriminate).
  split; [exact H1|]. split; [exact H2|].
  exact (getMermaid_cached [2; 0; 1]%nat _ _ H1 H2).
Defined.

(** *** Full mode *)

Lemma combine_from_ok {T E : Type} (rs : list (Result T E)) :
  forall vs : list T,
    reported (fold_left (fun acc r =>
                 match r, acc with
                 | Err e, Err es => Err (es ++ [e])%list
                 | Err e, Ok _ => Err [e]
                 | Ok _, Err es => Err es
                 | Ok v, Ok vs => Ok (vs ++ [v])%list
                 end) rs (Ok vs)) = errs_of rs.
Proof.
  induction rs as [|r rs IH]; intros vs; simpl; [reflexivity|].
  destruct r as [v|e]; [apply IH|].
  rewrite combine_from_err. reflexivity.
Qed.

Lemma combineWithAllErrors_reported {T E : Type} (rs : list (Result T E)) :
  reported (combineWithAllErrors rs) = errs_of rs.
Proof. apply combine_from_ok. Qed.

Lemma negb_all_ws_trim (s : string) :
  negb (all_ws s) = negb (String.eqb (trim s) EmptyString).
Proof.
  destruct (String.eqb_spec (trim s) EmptyString) as [H|H].
  - apply trim_empty_iff in H. rewrite H. reflexivity.
  - destruct (all_ws s) eqn:E; [|reflexivity].
    exfalso. apply H. apply trim_empty_iff. exact E.
Qed.

Lemma validateMermaidBlock_calls (mermaid_parse : string -> option Thrown) (b : CodeBlock) :
  fst (validateMermaidBlock mermaid_parse b) =
  if String.eqb (trim (code b)) EmptyString then [] else [trim (code b)].
Proof.
  unfold validateMermaidBlock, checkNotEmpty.
  destruct (String.eqb (trim (code b)) EmptyString); reflexivity.
Qed.

Lemma mermaid_parse_calls (mermaid_parse : string -> option Thrown) (blocks : list CodeBlock) :
  flat_map fst (map (validateMermaidBlock mermaid_parse) blocks) =
  map (fun b => trim (code b)) (filter (fun b => negb (all_ws (code b))) blocks).
Proof.
  induction blocks as [|b bs IH]; simpl; [reflexivity|].
  rewrite validateMermaidBlock_calls, IH, negb_all_ws_trim.
  destruct (String.eqb (trim (code b)) EmptyString); reflexivity.
Qed.

(** Full mode, whatever the order in which the validations settle: the
    parser is called once for each block whose code is not whitespace only,
    on its trimmed code, in block order; and [onError] receives exactly the
    errors of the failing blocks, one per block, in block order (passing
    blocks contribute nothing). *)
Theorem full_mode_reports_failing_blocks (mermaid_parse : string -> option Thrown)
  (order : list nat) (tokens : list Token.t) :
  Permutation order (seq 0 (length (extractMermaidBlocks tokens))) ->
  rule mermaid_parse None order tokens =
  (map (fun b => trim (code b)) (filter (fun b => negb (all_ws (code b))) (extractMermaidBlocks tokens)),
   errs_of (map (fun b => snd (validateMermaidBlock mermaid_parse b)) (extractMermaidBlocks tokens))).
Proof.
  intros Hp. unfold rule. cbn zeta iota.
  rewrite map_map, promise_all_input_order by (rewrite length_map; exact Hp).
  f_equal.
  - apply mermaid_parse_calls.
  - apply combineWithAllErrors_reported.
Qed.

Lemma full_mode_reports_failing_blocks_witness :
  Permutation [1; 0]%nat (seq 0 (length (extractMermaidBlocks two_flowcharts))) /\
  rule (fun c => if String.eqb c (join_nl ["graph TD"; "C --> D"])
                 then Some (ThrownError "Lexical error on line 2. Unrecognized text.")
                 else None) None [1; 0]%nat two_flowcharts =
  (map (fun b => trim (code b))
       (filter (fun b => negb (all_ws (code b))) (extractMermaidBlocks two_flowcharts)),
   errs_of (map (fun b => snd (validateMermaidBlock
                   (fun c => if String.eqb c (join_nl ["graph TD"; "C --> D"])
                             then Some (ThrownError "Lexical error on line 2. Unrecognized text.")
                             else None) b))
                (extractMermaidBlocks two_flowcharts))).
Proof.
  assert (Hp : Permutation [1; 0]%nat (seq 0 (length (extractMermaidBlocks two_flowcharts))))
    by (vm_compute; apply perm_swap).
  split; [exact Hp|]. apply full_mode_reports_failing_blocks. exact Hp.
Defined.

(** *** The KaTeX rule *)

Lemma count_nl_app (u v : string) : count_nl (u ++ v) = count_nl u + count_nl v.
Proof. induction u as [|a u IH]; simpl; [reflexivity|]. rewrite IH. lia. Qed.

Lemma count_nl_trim (s : string) : count_nl (trim s) <= count_nl s.
Proof.
  unfold trim.
  destruct (ltrim_split s) as [u [_ Hs]].
  destruct (rtrim_split (ltrim s)) as [t [_ Ht]].
  assert (count_nl s = count_nl u + count_nl (ltrim s)) by (rewrite Hs at 1; apply count_nl_app).
  assert (count_nl (ltrim s) = count_nl (rtrim (ltrim s)) + count_nl t)
    by (rewrite Ht at 1; apply count_nl_app).
  pose proof (count_nl_nonneg u). pose proof (count_nl_nonneg t). lia.
Qed.

Lemma calculateKatexErrorLine_bounds (c : string) (p line0 : Z) :
  line0 <= calculateKatexErrorLine c p line0 <= line0 + count_nl c.
Proof.
  unfold calculateKatexErrorLine, substring0.
  pose proof (count_nl_prefix (Z.to_nat p) c). lia.
Qed.

(** [validateKatexBlock] calls the KaTeX parser only for a block that is not
    whitespace only, and then on its trimmed code; every error it reports
    lies within the block's lines (from its start line to the start line
    plus the number of its newlines); a block it accepts is returned trimmed,
    the parser having accepted it with the configured [displayMode] and
    [strict] (both [false] by default). *)
Theorem validateKatexBlock_in_span (katex_parse : string -> bool -> bool -> option KatexThrown)
  (block : CodeBlock) (config : KatexRuleConfig) :
  fst (validateKatexBlock katex_parse block config) =
    (if all_ws (code block) then [] else [trim (code block)]) /\
  (forall e, snd (validateKatexBlock katex_parse block config) = Err e ->
     startLine block <= ValidationError.lineNumber e <= startLine block + count_nl (code block)) /\
  (forall b, snd (validateKatexBlock katex_parse block config) = Ok b ->
     b = mkBlock (trim (code block)) (startLine block) /\
     katex_parse (trim (code block))
       (match displayMode config with Some x => x | None => false end)
       (match strict config with Some x => x | None => false end) = None).
Proof.
  unfold validateKatexBlock, checkKatexNotEmpty.
  pose proof (negb_all_ws_trim (code block)) as Hw.
  destruct (String.eqb (trim (code block)) EmptyString).
  - destruct (all_ws (code block)); [|discriminate].
    split; [reflexivity|]. split; [|discriminate].
    intros e He. inversion He. simpl. pose proof (count_nl_nonneg (code block)). lia.
  - destruct (all_ws (code block)); [discriminate|].
    unfold validateKatexSyntax. cbn [code startLine fst snd].
    split; [reflexivity|].
    destruct (katex_parse (trim (code block)) _ _) as [error|] eqn:Ek.
    + split; [|discriminate]. intros e He. inversion He. subst e.
      pose proof (count_nl_trim (code block)). pose proof (count_nl_nonneg (code block)).
      destruct error as [message [p|]| |]; simpl.
      * pose proof (calculateKatexErrorLine_bounds (trim (code block)) p (startLine block)). lia.
      * lia.
      * lia.
      * lia.
    + split; [discriminate|]. intros b Hb. inversion Hb. split; reflexivity.
Qed.

Lemma validateKatexBlock_ok (katex_parse : string -> bool -> bool -> option KatexThrown)
  (block : CodeBlock) (config : KatexRuleConfig) :
  isErr (snd (validateKatexBlock katex_parse block config)) = false <->
  all_ws (code block) = false /\
  katex_parse (trim (code block))
    (match displayMode config with Some x => x | None => false end)
    (match strict config with Some x => x | None => false end) = None.
Proof.
  unfold validateKatexBlock, checkKatexNotEmpty.
  pose proof (negb_all_ws_trim (code block)) as Hw.
  destruct (String.eqb (trim (code block)) EmptyString).
  - destruct (all_ws (code block)); [|discriminate].
    simpl. split; [discriminate|]. intros [H _]. discriminate.
  - destruct (all_ws (code block)); [discriminate|].
    unfold validateKatexSyntax. cbn [code startLine fst snd].
    destruct (katex_parse (trim (code block)) _ _); simpl.
    + split; [discriminate|]. intros [_ H]. discriminate.
    + tauto.
Qed.

(** The KaTeX rule calls the parser once per extracted block that is not
    whitespace only, on its trimmed code, in block order; it reports no error
    exactly when every block is non-blank and accepted by the parser. *)
Theorem katex_rule_reports (katex_parse : string -> bool -> bool -> option KatexThrown)
  (config : KatexRuleConfig) (tokens : list Token.t) :
  fst (katex_rule katex_parse (Some config) tokens) =
    map (fun b => trim (code b)) (filter (fun b => negb (all_ws (code b))) (extractKatexBlocks tokens)) /\
  (snd (katex_rule katex_parse (Some config) tokens) = [] <->
   Forall (fun b => all_ws (code b) = false /\
                    katex_parse (trim (code b))
                      (match displayMode config with Some x => x | None => false end)
                      (match strict config with Some x => x | None => false end) = None)
          (extractKatexBlocks tokens)).
Proof.
  unfold katex_rule. cbn zeta iota beta. cbn [fst snd].
  induction (extractKatexBlocks tokens) as [|b bs [IH1 IH2]]; simpl.
  - split; [reflexivity|]. split; constructor.
  - split.
    + rewrite IH1. destruct (validateKatexBlock_in_span katex_parse b config) as [Hc _].
      rewrite Hc. destruct (all_ws (code b)); reflexivity.
    + rewrite Forall_cons_iff, <- IH2, <- validateKatexBlock_ok.
      destruct (snd (validateKatexBlock katex_parse b config)); simpl.
      * tauto.
      * split; [discriminate|]. intros [H _]. discriminate.
Qed.

(** *** [extractKatexContext] *)

Lemma substring_length_le (m n : nat) (s : string) : (String.length (substring m n s) <= n)%nat.
Proof.
  revert m n; induction s as [|a s IH]; intros m n.
  - destruct m, n; simpl; lia.
  - destruct m as [|m]; simpl.
    + destruct n as [|n]; simpl; [lia|]. specialize (IH 0%nat n). lia.
    + apply IH.
Qed.

Definition nl_str : string := String nl EmptyString.

Lemma starts_with_nl (a : ascii) (s : string) :
  starts_with nl_str (String a s) = Ascii.eqb nl a.
Proof. unfold nl_str. cbn [starts_with]. apply andb_true_r. Qed.

Lemma includes_nl_cons (a : ascii) (s : string) :
  includes nl_str (String a s) = Ascii.eqb nl a || includes nl_str s.
Proof.
  change (includes nl_str (String a s)) with (starts_with nl_str (String a s) || includes nl_str s).
  rewrite starts_with_nl. reflexivity.
Qed.

Lemma replace_nl_spec (n : nat) (s : string) :
  (String.length s <= n)%nat ->
  String.length (replace_all_from n nl_str " " s) = String.length s /\
  includes nl_str (replace_all_from n nl_str " " s) = false.
Proof.
  revert s; induction n as [|n IH]; intros s Hn.
  - destruct s; [split; reflexivity|simpl in Hn; lia].
  - destruct s as [|a s]; [split; reflexivity|].
    simpl in Hn. destruct (IH s ltac:(lia)) as [H1 H2].
    cbn [replace_all_from]. rewrite starts_with_nl.
    destruct (Ascii.eqb nl a) eqn:Ha.
    + change (String.length nl_str) with 1%nat.
      change (String.length (String a s) - 1)%nat with (String.length s - 0)%nat.
      rewrite Nat.sub_0_r.
      change (substring 1 (String.length s) (String a s)) with (substring 0 (String.length s) s).
      rewrite substring_full.
      change (" " ++ replace_all_from n nl_str " " s)%string
        with (String " " (replace_all_from n nl_str " " s)).
      rewrite includes_nl_cons, H2. simpl. rewrite H1. split; reflexivity.
    + rewrite includes_nl_cons, Ha, H2. simpl. rewrite H1. split; reflexivity.
Qed.

(** The context [extractKatexContext] returns contains no newline and is at
    most 30 characters long, for every code and every position. *)
Theorem extractKatexContext_bounds (code : string) (position : Z) :
  includes (String nl EmptyString) (extractKatexContext code position) = false /\
  (String.length (extractKatexContext code position) <= 30)%nat.
Proof.
  unfold extractKatexContext, replace_all. fold nl_str.
  destruct (replace_nl_spec
              (String.length (js_substring code (Z.max 0 (position - 15))
                                (Z.min (Z.of_nat (String.length code)) (position + 15))))
              (js_substring code (Z.max 0 (position - 15))
                 (Z.min (Z.of_nat (String.length code)) (position + 15))) (le_n _))
    as [H1 H2].
  split; [exact H2|]. rewrite H1.
  unfold js_substring.
  eapply Nat.le_trans; [apply substring_length_le|]. lia.
Qed.

(** *** Fences *)

(** A fence token is extracted by at most one of the two rules: its
    language cannot be both [mermaid] and one of [KATEX_LANGS]. *)
Theorem fence_rules_disjoint (token : Token.t) :
  Token.type token = "fence" ->
  token_blocks token = [] \/ katex_token_blocks token = [].
Proof.
  intros Ht. unfold token_blocks, katex_token_blocks. rewrite Ht. cbn [String.eqb Ascii.eqb Bool.eqb].
  destruct (String.eqb_spec (to_lower (trim (Token.info token))) "mermaid") as [E|E].
  - right. rewrite E. reflexivity.
  - left. reflexivity.
Qed.

(** *** Leading blanks *)

Lemma ltrim_app_ws (u c : string) : all_ws u = true -> ltrim (u ++ c) = ltrim c.
Proof.
  induction u as [|a u IH]; simpl; [reflexivity|].
  intros H. apply andb_prop in H as [Ha Hu]. rewrite Ha. exact (IH Hu).
Qed.

Lemma trim_app_ws_l (u c : string) : all_ws u = true -> trim (u ++ c) = trim c.
Proof. intros H. unfold trim. rewrite ltrim_app_ws by exact H. reflexivity. Qed.

(** Whitespace before the first non-blank character of a block, blank lines
    included, changes nothing in its validation (full mode, basic mode and
    KaTeX): the code is trimmed before it is checked, so the lines of the
    errors are counted from the first non-blank line. *)
Theorem leading_blank_lines_ignored (mermaid_parse : string -> option Thrown)
  (katex_parse : string -> bool -> bool -> option KatexThrown)
  (config : KatexRuleConfig) (u c : string) (line0 : Z) :
  all_ws u = true ->
  validateMermaidBlock mermaid_parse (mkBlock (u ++ c) line0) =
    validateMermaidBlock mermaid_parse (mkBlock c line0) /\
  validateBasicBlock (mkBlock (u ++ c) line0) = validateBasicBlock (mkBlock c line0) /\
  validateKatexBlock katex_parse (mkBlock (u ++ c) line0) config =
    validateKatexBlock katex_parse (mkBlock c line0) config.
Proof.
  intros H.
  unfold validateMermaidBlock, validateBasicBlock, validateKatexBlock,
    checkNotEmpty, checkKatexNotEmpty.
  cbn [code startLine]. rewrite trim_app_ws_l by exact H.
  repeat split.
Qed.

Definition math_with_blank_lines : string := join_nl [""; "  "; "x + 1"; "\frac{a"].

Definition frac_parse (c : string) (_ _ : bool) : option KatexThrown :=
  if String.eqb c (join_nl ["x + 1"; "\frac{a"])
  then Some (KatexParseError
               "KaTeX parse error: Expected '}', got 'EOF' at end of input: x + 1\frac{a" (Some 13))
  else None.

Lemma leading_blank_lines_ignored_witness :
  all_ws (String nl (String " " (String " " (String nl EmptyString)))) = true /\
  validateKatexBlock frac_parse
    (mkBlock (String nl (String " " (String " " (String nl EmptyString))) ++
              join_nl ["x + 1"; "\frac{a"]) 7) (mkKatexConfig None None) =
  validateKatexBlock frac_parse (mkBlock (join_nl ["x + 1"; "\frac{a"]) 7) (mkKatexConfig None None).
Proof.
  assert (H : all_ws (String nl (String " " (String " " (String nl EmptyString)))) = true)
    by reflexivity.
  split; [exact H|].
  apply (leading_blank_lines_ignored (fun _ => None) frac_parse (mkKatexConfig None None)
           _ (join_nl ["x + 1"; "\frac{a"]) 7 H).
Defined.

(** *** Concrete instances *)

Lemma empty_checks_trim_witness :
  checkNotEmpty (mkBlock (join_nl ["  flowchart LR"; ""]) 3) = Ok (mkBlock "flowchart LR" 3) /\
  mkBlock "flowchart LR" 3 = mkBlock (trim (join_nl ["  flowchart LR"; ""])) 3 /\
  checkNotEmpty (mkBlock "flowchart LR" 3) = Ok (mkBlock "flowchart LR" 3) /\
  checkKatexNotEmpty (mkBlock " " 4) =
    Err (ValidationError.mk 4 (Some empty_math_detail) None).
Proof.
  assert (H1 : checkNotEmpty (mkBlock (join_nl ["  flowchart LR"; ""]) 3) =
               Ok (mkBlock "flowchart LR" 3)) by (vm_compute; reflexivity).
  assert (H2 : checkKatexNotEmpty (mkBlock " " 4) =
               Err (ValidationError.mk 4 (Some empty_math_detail) None))
    by (vm_compute; reflexivity).
  destruct (empty_checks_trim (mkBlock (join_nl ["  flowchart LR"; ""]) 3))
    as [[_ [_ Hok]] _].
  split; [exact H1|]. split; [exact (proj1 (Hok _ H1))|].
  split; [exact (proj2 (Hok _ H1))|].
  exact H2.
Defined.

Lemma decodeHtmlEntities_no_amp_witness :
  includes "&" "A --> B" = false /\ decodeHtmlEntities "A --> B" = "A --> B".
Proof.
  assert (H : includes "&" "A --> B" = false) by reflexivity.
  split; [exact H|]. exact (decodeHtmlEntities_no_amp "A --> B" H).
Defined.

Definition frac_block : CodeBlock := mkBlock math_with_blank_lines 7.

Definition frac_error : ValidationError.t :=
  ValidationError.mk 8
    (Some "Expected '}', got 'EOF' at end of input: x + 1\frac{a. Make sure all braces {} are properly closed")
    (Some "x + 1 \frac{a").

Lemma validateKatexBlock_in_span_witness :
  snd (validateKatexBlock frac_parse frac_block (mkKatexConfig None None)) = Err frac_error /\
  7 <= ValidationError.lineNumber frac_error <= 7 + count_nl math_with_blank_lines.
Proof.
  assert (H : snd (validateKatexBlock frac_parse frac_block (mkKatexConfig None None)) =
              Err frac_error) by (vm_compute; reflexivity).
  split; [exact H|].
  exact (proj1 (proj2 (validateKatexBlock_in_span frac_parse frac_block
                         (mkKatexConfig None None))) _ H).
Defined.

Definition math_doc : list Token.t :=
  [Token.mk "fence" "math" "E = mc^2" 1;
   Token.mk "html_block" EmptyString
     ("<span class=" ++ dq ++ "math" ++ dq ++ ">a^2</span>")%string 5].

Lemma katex_rule_reports_witness :
  Forall (fun b => all_ws (code b) = false /\
                   frac_parse (trim (code b)) true false = None)
         (extractKatexBlocks math_doc) /\
  snd (katex_rule frac_parse (Some (mkKatexConfig (Some true) None)) math_doc) = [].
Proof.
  assert (H : Forall (fun b => all_ws (code b) = false /\
                               frac_parse (trim (code b)) true false = None)
                     (extractKatexBlocks math_doc))
    by (vm_compute; repeat constructor).
  split; [exact H|].
  apply (proj2 (proj2 (katex_rule_reports frac_parse (mkKatexConfig (Some true) None) math_doc))).
  exact H.
Defined.

Lemma fence_rules_disjoint_witness :
  Token.type (Token.mk "fence" "Mermaid" "graph TD" 1) = "fence" /\
  (token_blocks (Token.mk "fence" "Mermaid" "graph TD" 1) = [] \/
   katex_token_blocks (Token.mk "fence" "Mermaid" "graph TD" 1) = []).
Proof.
  assert (H : Token.type (Token.mk "fence" "Mermaid" "graph TD" 1) = "fence") by reflexivity.
  split; [exact H|]. exact (fence_rules_disjoint _ H).
Defined.
